(** * Item-category service and profit-and-loss totals of bigcapital

    A shallow embedding of
    [server/src/services/ItemCategories/ItemCategoriesService.ts] and of the
    statement shape declared in [server/src/interfaces/ProfitLossSheet.ts].

    Every method of the service starts with [this.tenancy.models(tenantId)]
    (or [this.tenancy.repositories(tenantId)]): it works on the tables of one
    tenant.  The embedding is therefore written over the store of the tenant
    selected by [tenantId]; the tables of other tenants are out of reach of a
    call by construction.  The [logger.info] calls have no effect on the
    store and are left out. *)

From stdpp Require Import gmap strings list fin_maps.
From Stdlib Require Import ZArith Lia.

Local Open Scope Z_scope.

(** ** Data model *)

(** The [ERRORS] table of the service, names as in the source. *)
Inductive ERRORS : Set :=
| ITEM_CATEGORIES_NOT_FOUND
| CATEGORY_NAME_EXISTS
| CATEGORY_NOT_FOUND
| COST_ACCOUNT_NOT_FOUMD
| COST_ACCOUNT_NOT_COGS
| SELL_ACCOUNT_NOT_INCOME
| SELL_ACCOUNT_NOT_FOUND
| INVENTORY_ACCOUNT_NOT_FOUND
| INVENTORY_ACCOUNT_NOT_INVENTORY
| CATEGORY_HAVE_ITEMS.

#[global] Instance ERRORS_eq_dec : EqDecision ERRORS.
Proof. solve_decision. Defined.

(** [new ServiceError(ERRORS.X)]: every throw site of the service passes the
    error type and nothing else, so that is all an error value holds. *)
Record ServiceError : Set := mkServiceError { errorType : ERRORS }.

#[global] Instance ServiceError_eq_dec : EqDecision ServiceError.
Proof. solve_decision. Defined.

(** An optional numeric property of a JS object ([sellAccountId?: number]):
    absent, [null], or a number. *)
Inductive OptionalNumber : Set :=
| JsUndefined
| JsNull
| JsNum (n : Z).

(** JS truthiness of such a value, as tested by [if (x) {...}]: a number is
    truthy unless it is [0]. *)
Definition truthy (v : OptionalNumber) : option Z :=
  match v with
  | JsNum n => if n =? 0 then None else Some n
  | JsUndefined | JsNull => None
  end.

(** [IItemCategoryOTD]: the fields of the payload the service reads. *)
Record IItemCategoryOTD : Set := mkOTD {
  name : string;
  sellAccountId : OptionalNumber;
  costAccountId : OptionalNumber;
  inventoryAccountId : OptionalNumber
}.

Record ISystemUser : Set := mkUser { userIdOf : Z }.

(** The object built by [transformOTDToObject]: the payload spread, plus
    [userId]. *)
Record ItemCategoryObj : Set := mkObj {
  objOTD : IItemCategoryOTD;
  objUserId : Z
}.

(** A stored row of the [ItemCategory] model; its [id] is the key of the
    table.  Account columns are nullable. *)
Record IItemCategory : Set := mkCategory {
  row_name : string;
  row_sellAccountId : option Z;
  row_costAccountId : option Z;
  row_inventoryAccountId : option Z;
  row_userId : Z
}.

(** A stored row of the [Item] model.  The service reads and writes the
    [category_id] column only; [itemColumns] stands for all the others. *)
Record Item : Set := mkItem {
  itemColumns : list (string * string);
  category_id : option Z
}.

(** Modelled from the spec: [data/AccountTypes] ([ACCOUNT_ROOT_TYPE],
    [ACCOUNT_TYPE]) and the [Account] model with its [isRootType] and
    [isAccountType] methods are not under src/.  The glossary gives the root
    types (income, expense, asset, liability, equity); of the account types
    the service names [INVENTORY] only. *)
Inductive ACCOUNT_ROOT_TYPE : Set := INCOME | EXPENSE | ASSET | LIABILITY | EQUITY.

Inductive ACCOUNT_TYPE : Set := INVENTORY | OTHER_ACCOUNT_TYPE (key : string).

#[global] Instance ACCOUNT_ROOT_TYPE_eq_dec : EqDecision ACCOUNT_ROOT_TYPE.
Proof. solve_decision. Defined.

#[global] Instance ACCOUNT_TYPE_eq_dec : EqDecision ACCOUNT_TYPE.
Proof. solve_decision. Defined.

Record Account : Set := mkAccount {
  accountRootType : ACCOUNT_ROOT_TYPE;
  accountType : ACCOUNT_TYPE
}.

(** Modelled from the spec: [account.isRootType(rootType)], the account's
    top-level classification is the given one. *)
Definition isRootType (a : Account) (r : ACCOUNT_ROOT_TYPE) : bool :=
  bool_decide (accountRootType a = r).

(** Modelled from the spec: [account.isAccountType(type)]. *)
Definition isAccountType (a : Account) (t : ACCOUNT_TYPE) : bool :=
  bool_decide (accountType a = t).

(** [events.itemCategory.*] *)
Inductive ItemCategoryEvent : Set := onCreated | onEdited | onDeleted | onBulkDeleted.

(** What a call does to the outside, in the order it does it: the write
    statements it issues on the tenant's tables and the events it hands to
    the dispatcher. *)
Inductive Effect : Set :=
| InsertItemCategory (id : Z)
| PatchItemCategory (id : Z)
| PatchItemsCategoryNull (ids : list Z)
| DeleteItemCategories (ids : list Z)
| Dispatch (ev : ItemCategoryEvent).

(** The store of one tenant: the three tables the service touches, and the
    effects issued so far. *)
Record Tenant : Type := mkTenant {
  itemCategories : gmap Z IItemCategory;
  items : gmap Z Item;
  accounts : gmap Z Account;
  effects : list Effect
}.

(** ** Asynchronous methods that may throw

    An [async] method is a function of the store that either resolves with a
    value or rejects with the thrown [ServiceError]; both come with the store
    as it is at that point (nothing rolls back a write that was already
    made). *)
Inductive Outcome (A : Type) : Type :=
| Resolved (a : A) (st : Tenant)
| Rejected (e : ServiceError) (st : Tenant).

Arguments Resolved {A} a st.
Arguments Rejected {A} e st.

Definition Async (A : Type) : Type := Tenant -> Outcome A.

Definition resolve {A} (a : A) : Async A := fun st => Resolved a st.

Definition throw {A} (e : ERRORS) : Async A :=
  fun st => Rejected (mkServiceError e) st.

Definition await {A B} (m : Async A) (k : A -> Async B) : Async B :=
  fun st =>
    match m st with
    | Resolved a st' => k a st'
    | Rejected e st' => Rejected e st'
    end.

#[global] Instance Async_ret : MRet Async := @resolve.
#[global] Instance Async_bind : MBind Async := fun A B k m => await m k.

Definition read {A} (f : Tenant -> A) : Async A := fun st => Resolved (f st) st.

Definition update (f : Tenant -> Tenant) : Async unit := fun st => Resolved tt (f st).

Definition stateOf {A} (o : Outcome A) : Tenant :=
  match o with Resolved _ st => st | Rejected _ st => st end.

Definition rejection {A} (o : Outcome A) : option ERRORS :=
  match o with Resolved _ _ => None | Rejected e _ => Some (errorType e) end.

Definition isResolved {A} (o : Outcome A) : bool :=
  match o with Resolved _ _ => true | Rejected _ _ => false end.

(** ** The query builder, as far as the service uses it

    The ORM is an external collaborator; these are the statements the
    service builds with it, over a table keyed by [id]. *)

(** [Model.query().findById(id)] *)
Definition findById {R} (id : Z) (t : gmap Z R) : option R := t !! id.

(** [Model.query().findOne(...)] under the conditions [cond]: a row that
    meets them, or nothing. *)
Definition findOne {R} (cond : Z -> R -> bool) (t : gmap Z R) : option (Z * R) :=
  List.find (fun kv => cond kv.1 kv.2) (map_to_list t).

(** [Model.query().whereIn('id', ids)] *)
Definition whereIdIn {R} (ids : list Z) (t : gmap Z R) : gmap Z R :=
  filter (fun kv => kv.1 ∈ ids) t.

(** [Model.query().whereIn('id', ids).delete()] *)
Definition deleteWhereIdIn {R} (ids : list Z) (t : gmap Z R) : gmap Z R :=
  filter (fun kv => kv.1 ∉ ids) t.

(** The key an insert gives the new row: the table's auto-increment column,
    past every key in use. *)
Definition nextId {R} (t : gmap Z R) : Z :=
  1 + foldr Z.max 0 (map_to_list t).*1.

(** A column of an inserted row: an absent property leaves the column at its
    default, [NULL]. *)
Definition insertColumn (v : OptionalNumber) : option Z :=
  match v with
  | JsNum n => Some n
  | JsUndefined | JsNull => None
  end.

(** A column of a patched row: an absent property leaves the column as it
    is. *)
Definition patchColumn (v : OptionalNumber) (old : option Z) : option Z :=
  match v with
  | JsNum n => Some n
  | JsNull => None
  | JsUndefined => old
  end.

Definition insertedRow (obj : ItemCategoryObj) : IItemCategory :=
  {| row_name := name (objOTD obj);
     row_sellAccountId := insertColumn (sellAccountId (objOTD obj));
     row_costAccountId := insertColumn (costAccountId (objOTD obj));
     row_inventoryAccountId := insertColumn (inventoryAccountId (objOTD obj));
     row_userId := objUserId obj |}.

Definition patchedRow (obj : ItemCategoryObj) (old : IItemCategory) : IItemCategory :=
  {| row_name := name (objOTD obj);
     row_sellAccountId := patchColumn (sellAccountId (objOTD obj)) (row_sellAccountId old);
     row_costAccountId := patchColumn (costAccountId (objOTD obj)) (row_costAccountId old);
     row_inventoryAccountId :=
       patchColumn (inventoryAccountId (objOTD obj)) (row_inventoryAccountId old);
     row_userId := objUserId obj |}.

(** [patch({ category_id: null })] on one item row matched by
    [whereIn('category_id', ids)]; a [NULL] column matches no list. *)
Definition unlinkItem (ids : list Z) (it : Item) : Item :=
  match category_id it with
  | Some c =>
      if bool_decide (c ∈ ids)
      then {| itemColumns := itemColumns it; category_id := None |}
      else it
  | None => it
  end.

Definition setItemCategories (t : gmap Z IItemCategory) (st : Tenant) : Tenant :=
  {| itemCategories := t; items := items st; accounts := accounts st;
     effects := effects st |}.

Definition setItems (t : gmap Z Item) (st : Tenant) : Tenant :=
  {| itemCategories := itemCategories st; items := t; accounts := accounts st;
     effects := effects st |}.

Definition issue (e : Effect) (st : Tenant) : Tenant :=
  {| itemCategories := itemCategories st; items := items st;
     accounts := accounts st; effects := effects st ++ [e] |}.

(** [ItemCategory.query().insert({...})] *)
Definition ItemCategory_insert (obj : ItemCategoryObj) : Async (Z * IItemCategory) :=
  fun st =>
    let id := nextId (itemCategories st) in
    let row := insertedRow obj in
    Resolved (id, row)
      (issue (InsertItemCategory id)
         (setItemCategories (<[id := row]> (itemCategories st)) st)).

(** [ItemCategory.query().patchAndFetchById(id, {...})] *)
Definition ItemCategory_patchAndFetchById (id : Z) (obj : ItemCategoryObj)
  : Async (option IItemCategory) :=
  fun st =>
    match findById id (itemCategories st) with
    | Some old =>
        let row := patchedRow obj old in
        Resolved (Some row)
          (issue (PatchItemCategory id)
             (setItemCategories (<[id := row]> (itemCategories st)) st))
    | None => Resolved None (issue (PatchItemCategory id) st)
    end.

(** [ItemCategory.query().findById(id).delete()] *)
Definition ItemCategory_deleteById (id : Z) : Async unit :=
  update (fun st =>
    issue (DeleteItemCategories [id])
      (setItemCategories (delete id (itemCategories st)) st)).

(** [ItemCategory.query().whereIn('id', ids).delete()] *)
Definition ItemCategory_deleteWhereIdIn (ids : list Z) : Async unit :=
  update (fun st =>
    issue (DeleteItemCategories ids)
      (setItemCategories (deleteWhereIdIn ids (itemCategories st)) st)).

(** [Item.query().whereIn('category_id', ids).patch({ category_id: null })] *)
Definition Item_patchCategoryNull (ids : list Z) : Async unit :=
  update (fun st =>
    issue (PatchItemsCategoryNull ids)
      (setItems (unlinkItem ids <$> items st) st)).

(** [this.eventDispatcher.dispatch(ev)] *)
Definition dispatch (ev : ItemCategoryEvent) : Async unit :=
  update (issue (Dispatch ev)).

(** ** The service *)

Module ItemCategoriesService.

(** Retrieve item category or throw not found error. *)
Definition getItemCategoryOrThrowError (itemCategoryId : Z) : Async IItemCategory :=
  category ← read (fun st => findById itemCategoryId (itemCategories st));
  match category with
  | None => throw CATEGORY_NOT_FOUND
  | Some c => resolve c
  end.

(** Transforms OTD to model object: [{ ...itemCategoryOTD, userId: authorizedUser.id }]. *)
Definition transformOTDToObject (itemCategoryOTD : IItemCategoryOTD)
    (authorizedUser : ISystemUser) : ItemCategoryObj :=
  {| objOTD := itemCategoryOTD; objUserId := userIdOf authorizedUser |}.

Definition getItemCategory (itemCategoryId : Z) (user : ISystemUser)
  : Async IItemCategory :=
  getItemCategoryOrThrowError itemCategoryId.

(** The query of [validateCategoryNameUniquiness]: [findOne('name',
    categoryName)], with [whereNot('id', notCategoryId)] added when
    [notCategoryId] is truthy.  The name is handed to the query as it is. *)
Definition nameQuery (categoryName : string) (notCategoryId : OptionalNumber)
    (id : Z) (c : IItemCategory) : bool :=
  bool_decide (row_name c = categoryName)
  && match truthy notCategoryId with
     | Some n => negb (id =? n)
     | None => true
     end.

(** Validates the category name uniquiness. *)
Definition validateCategoryNameUniquiness (categoryName : string)
    (notCategoryId : OptionalNumber) : Async unit :=
  foundItemCategory ←
    read (fun st => findOne (nameQuery categoryName notCategoryId) (itemCategories st));
  match foundItemCategory with
  | Some _ => throw CATEGORY_NAME_EXISTS
  | None => resolve tt
  end.

(** Validates sell account existance and type. *)
Definition validateSellAccount (sellAccountId : Z) : Async unit :=
  foundAccount ← read (fun st => findById sellAccountId (accounts st));
  match foundAccount with
  | None => throw SELL_ACCOUNT_NOT_FOUND
  | Some a =>
      if negb (isRootType a INCOME) then throw SELL_ACCOUNT_NOT_INCOME
      else resolve tt
  end.

(** Validates COGS account existance and type. *)
Definition validateCostAccount (costAccountId : Z) : Async unit :=
  foundAccount ← read (fun st => findById costAccountId (accounts st));
  match foundAccount with
  | None => throw COST_ACCOUNT_NOT_FOUMD
  | Some a =>
      if negb (isRootType a EXPENSE) then throw COST_ACCOUNT_NOT_COGS
      else resolve tt
  end.

(** Validates inventory account existance and type. *)
Definition validateInventoryAccount (inventoryAccountId : Z) : Async unit :=
  foundAccount ← read (fun st => findById inventoryAccountId (accounts st));
  match foundAccount with
  | None => throw INVENTORY_ACCOUNT_NOT_FOUND
  | Some a =>
      if negb (isAccountType a INVENTORY) then throw INVENTORY_ACCOUNT_NOT_INVENTORY
      else resolve tt
  end.

(** [if (v) { await validate(v); }] *)
Definition ifTruthy (v : OptionalNumber) (validate : Z -> Async unit) : Async unit :=
  match truthy v with
  | Some n => validate n
  | None => resolve tt
  end.

(** Inserts a new item category. *)
Definition newItemCategory (itemCategoryOTD : IItemCategoryOTD)
    (authorizedUser : ISystemUser) : Async (Z * IItemCategory) :=
  validateCategoryNameUniquiness (name itemCategoryOTD) JsUndefined;;
  ifTruthy (sellAccountId itemCategoryOTD) validateSellAccount;;
  ifTruthy (costAccountId itemCategoryOTD) validateCostAccount;;
  ifTruthy (inventoryAccountId itemCategoryOTD) validateInventoryAccount;;
  let itemCategoryObj := transformOTDToObject itemCategoryOTD authorizedUser in
  itemCategory ← ItemCategory_insert itemCategoryObj;
  dispatch onCreated;;
  resolve itemCategory.

(** Edits item category. *)
Definition editItemCategory (itemCategoryId : Z) (itemCategoryOTD : IItemCategoryOTD)
    (authorizedUser : ISystemUser) : Async (option IItemCategory) :=
  oldItemCategory ← getItemCategoryOrThrowError itemCategoryId;
  validateCategoryNameUniquiness (name itemCategoryOTD) (JsNum itemCategoryId);;
  ifTruthy (sellAccountId itemCategoryOTD) validateSellAccount;;
  ifTruthy (costAccountId itemCategoryOTD) validateCostAccount;;
  ifTruthy (inventoryAccountId itemCategoryOTD) validateInventoryAccount;;
  let itemCategoryObj := transformOTDToObject itemCategoryOTD authorizedUser in
  itemCategory ← ItemCategory_patchAndFetchById itemCategoryId itemCategoryObj;
  dispatch onEdited;;
  resolve itemCategory.

(** Unlink items relations with item categories; the argument is
    [number | number[]]. *)
Definition unassociateItemsWithCategories (itemCategoryId : Z + list Z) : Async unit :=
  let ids := match itemCategoryId with
             | inr l => l
             | inl i => [i]
             end in
  Item_patchCategoryNull ids.

(** Deletes the given item category. *)
Definition deleteItemCategory (itemCategoryId : Z) (authorizedUser : ISystemUser)
  : Async unit :=
  getItemCategoryOrThrowError itemCategoryId;;
  unassociateItemsWithCategories (inl itemCategoryId);;
  ItemCategory_deleteById itemCategoryId;;
  dispatch onDeleted.

(** Retrieve item categories or throw not found error. *)
Definition getItemCategoriesOrThrowError (itemCategoriesIds : list Z) : Async unit :=
  itemCategories ←
    read (fun st => map_to_list (whereIdIn itemCategoriesIds (itemCategories st)));
  let storedItemCategoriesIds := itemCategories.*1 in
  let notFoundCategories := list_difference itemCategoriesIds storedItemCategoriesIds in
  if bool_decide (0 < length notFoundCategories)%nat
  then throw ITEM_CATEGORIES_NOT_FOUND
  else resolve tt.

(** Deletes item categories in bulk. *)
Definition deleteItemCategories (itemCategoriesIds : list Z)
    (authorizedUser : ISystemUser) : Async unit :=
  getItemCategoriesOrThrowError itemCategoriesIds;;
  unassociateItemsWithCategories (inr itemCategoriesIds);;
  ItemCategory_deleteWhereIdIn itemCategoriesIds;;
  dispatch onBulkDeleted.

End ItemCategoriesService.

Import ItemCategoriesService.

(** ** Notions used in the statements *)

(** A step that reads the store and either passes or throws. *)
Definition Validation (m : Async unit) : Prop := forall st, stateOf (m st) = st.

(** Some stored category, other than [except], bears the name [n]; names are
    compared as strings, character by character. *)
Definition nameTaken (st : Tenant) (n : string) (except : option Z) : Prop :=
  exists id c,
    itemCategories st !! id = Some c /\ row_name c = n /\ Some id <> except.

(** The three account validations of [newItemCategory] and
    [editItemCategory], in the order the methods run them. *)
Definition accountValidations (otd : IItemCategoryOTD) : Async unit :=
  ifTruthy (sellAccountId otd) validateSellAccount;;
  ifTruthy (costAccountId otd) validateCostAccount;;
  ifTruthy (inventoryAccountId otd) validateInventoryAccount.

(** The store after a successful [newItemCategory]. *)
Definition created (otd : IItemCategoryOTD) (user : ISystemUser) (st : Tenant) : Tenant :=
  let id := nextId (itemCategories st) in
  issue (Dispatch onCreated)
    (issue (InsertItemCategory id)
       (setItemCategories
          (<[id := insertedRow (transformOTDToObject otd user)]> (itemCategories st)) st)).

(** The store after a successful [editItemCategory] of the row [old]. *)
Definition edited (id : Z) (otd : IItemCategoryOTD) (user : ISystemUser)
    (old : IItemCategory) (st : Tenant) : Tenant :=
  issue (Dispatch onEdited)
    (issue (PatchItemCategory id)
       (setItemCategories
          (<[id := patchedRow (transformOTDToObject otd user) old]> (itemCategories st)) st)).

(** The store after [unassociateItemsWithCategories]. *)
Definition unlinked (ids : list Z) (st : Tenant) : Tenant :=
  issue (PatchItemsCategoryNull ids) (setItems (unlinkItem ids <$> items st) st).

(** The verdict on one account reference, in the words of the
    specification: a reference that is not supplied passes; a supplied one
    fails with [notFound] when no account has that id, with [wrongRole] when
    the account has not the required role, and passes otherwise.  A reference
    counts as supplied when the methods' guard [if (id)] lets it through. *)
Definition accountVerdict (st : Tenant) (ref : OptionalNumber)
    (hasRole : Account -> bool) (notFound wrongRole : ERRORS) : option ERRORS :=
  match truthy ref with
  | None => None
  | Some n =>
      match accounts st !! n with
      | None => Some notFound
      | Some a => if hasRole a then None else Some wrongRole
      end
  end.

Definition sellVerdict (st : Tenant) (otd : IItemCategoryOTD) : option ERRORS :=
  accountVerdict st (sellAccountId otd) (fun a => isRootType a INCOME)
    SELL_ACCOUNT_NOT_FOUND SELL_ACCOUNT_NOT_INCOME.

Definition costVerdict (st : Tenant) (otd : IItemCategoryOTD) : option ERRORS :=
  accountVerdict st (costAccountId otd) (fun a => isRootType a EXPENSE)
    COST_ACCOUNT_NOT_FOUMD COST_ACCOUNT_NOT_COGS.

Definition inventoryVerdict (st : Tenant) (otd : IItemCategoryOTD) : option ERRORS :=
  accountVerdict st (inventoryAccountId otd) (fun a => isAccountType a INVENTORY)
    INVENTORY_ACCOUNT_NOT_FOUND INVENTORY_ACCOUNT_NOT_INVENTORY.

(** The references are judged in turn, sell, cost, inventory: the first
    failure is the error of the call. *)
Definition accountChecks (st : Tenant) (otd : IItemCategoryOTD) : option ERRORS :=
  match sellVerdict st otd with
  | Some e => Some e
  | None =>
      match costVerdict st otd with
      | Some e => Some e
      | None => inventoryVerdict st otd
      end
  end.

(** The values of an optional id that JS takes for false. *)
Definition falsy (v : OptionalNumber) : Prop :=
  v = JsNum 0 \/ v = JsNull \/ v = JsUndefined.

(** The two errors of each account reference. *)
Definition sellError (e : ERRORS) : Prop :=
  e = SELL_ACCOUNT_NOT_FOUND \/ e = SELL_ACCOUNT_NOT_INCOME.

Definition costError (e : ERRORS) : Prop :=
  e = COST_ACCOUNT_NOT_FOUMD \/ e = COST_ACCOUNT_NOT_COGS.

Definition inventoryError (e : ERRORS) : Prop :=
  e = INVENTORY_ACCOUNT_NOT_FOUND \/ e = INVENTORY_ACCOUNT_NOT_INVENTORY.

(** A small tenant to run the methods on: categories 3 and 4, three items of
    which two are in category 3, an income, an expense and an inventory
    account. *)
Definition demoTenant : Tenant :=
  {| itemCategories :=
       <[3 := mkCategory "Hardware" None None None 1]>
         (<[4 := mkCategory "Software" (Some 10) None None 2]> ∅);
     items :=
       <[1 := mkItem [("name", "Hammer")] (Some 3)]>
         (<[2 := mkItem [("name", "Licence")] (Some 4)]>
            (<[5 := mkItem [("name", "Nail")] (Some 3)]>
               (<[6 := mkItem [("name", "Misc")] None]> ∅)));
     accounts :=
       <[10 := mkAccount INCOME (OTHER_ACCOUNT_TYPE "income")]>
         (<[11 := mkAccount EXPENSE (OTHER_ACCOUNT_TYPE "cost-of-goods-sold")]>
            (<[12 := mkAccount ASSET INVENTORY]> ∅));
     effects := [] |}.

Definition demoUser : ISystemUser := {| userIdOf := 7 |}.

(** The store after a successful [deleteItemCategory]. *)
Definition deleted (id : Z) (st : Tenant) : Tenant :=
  issue (Dispatch onDeleted)
    (issue (DeleteItemCategories [id])
       (setItemCategories (delete id (itemCategories st)) (unlinked [id] st))).

(** The store after a successful [deleteItemCategories]. *)
Definition bulkDeleted (ids : list Z) (st : Tenant) : Tenant :=
  issue (Dispatch onBulkDeleted)
    (issue (DeleteItemCategories ids)
       (setItemCategories (deleteWhereIdIn ids (itemCategories st)) (unlinked ids st))).

(** No two stored categories bear the same name. *)
Definition uniqueNames (st : Tenant) : Prop :=
  forall i j ci cj,
    itemCategories st !! i = Some ci -> itemCategories st !! j = Some cj ->
    row_name ci = row_name cj -> i = j.

(** The keys of the category table are positive, as an auto-increment column
    gives them. *)
Definition positiveKeys (st : Tenant) : Prop :=
  forall i c, itemCategories st !! i = Some c -> 0 < i.

(** Every item that has a category refers to a stored one. *)
Definition noDanglingItems (st : Tenant) : Prop :=
  forall k it c,
    items st !! k = Some it -> category_id it = Some c ->
    is_Some (itemCategories st !! c).

(** The three properties above, as checks that run on a given store. *)
Definition uniqueNamesb (st : Tenant) : bool :=
  bool_decide
    (map_Forall
       (fun i ci =>
          map_Forall (fun j cj => row_name ci = row_name cj -> i = j)
            (itemCategories st))
       (itemCategories st)).

Definition positiveKeysb (st : Tenant) : bool :=
  bool_decide (map_Forall (fun i (_ : IItemCategory) => 0 < i) (itemCategories st)).

Definition noDanglingItemsb (st : Tenant) : bool :=
  bool_decide
    (map_Forall
       (fun (_ : Z) it =>
          match category_id it with
          | Some c => bool_decide (is_Some (itemCategories st !! c))
          | None => true
          end = true)
       (items st)).

(** ** Profit and loss statement

    The records follow [interfaces/ProfitLossSheet.ts].  An [amount] is a JS
    number; the embedding takes amounts as whole numbers (of the minor unit
    of the currency), on which [+] and [-] are exact. *)

Module ProfitLossSheet.

Record IProfitLossSheetTotal : Set := mkTotal {
  amount : Z;
  formattedAmount : string;
  currencyCode : string;
  date : option string
}.

Record IProfitLossSheetAccount : Set := mkSheetAccount {
  account_id : Z;
  account_index : Z;
  account_name : string;
  account_code : string;
  parentAccountId : Z;
  hasTransactions : bool;
  account_total : IProfitLossSheetTotal;
  account_totalPeriods : list IProfitLossSheetTotal
}.

(** [entryNormal: 'credit'] *)
Inductive EntryNormal : Set := credit.

Record IProfitLossSheetAccountsSection : Set := mkAccountsSection {
  sectionTitle : string;
  entryNormal : EntryNormal;
  section_accounts : list IProfitLossSheetAccount;
  section_total : IProfitLossSheetTotal;
  section_totalPeriods : option (list IProfitLossSheetTotal)
}.

Record IProfitLossSheetTotalSection : Set := mkTotalSection {
  total : IProfitLossSheetTotal;
  totalPeriods : option (list IProfitLossSheetTotal)
}.

Record IProfitLossSheetStatement : Set := mkStatement {
  income : IProfitLossSheetAccountsSection;
  costOfSales : IProfitLossSheetAccountsSection;
  expenses : IProfitLossSheetAccountsSection;
  otherExpenses : IProfitLossSheetAccountsSection;
  netIncome : IProfitLossSheetTotalSection;
  operatingProfit : IProfitLossSheetTotalSection;
  grossProfit : IProfitLossSheetTotalSection
}.

Section Shaping.

(** The rendering of an amount under the query's [numberFormat], and the
    currency of the statement. *)
Variable formatNumber : Z -> string.
Variable currency : string.

Definition totalOf (n : Z) : IProfitLossSheetTotal :=
  {| amount := n; formattedAmount := formatNumber n; currencyCode := currency;
     date := None |}.

(** Modelled from the spec: the service that shapes the statement is not
    under src/, only its interface is.  The total of a section sums the
    totals of the accounts grouped under it. *)
Definition sumAccounts (accounts : list IProfitLossSheetAccount) : Z :=
  foldr (fun a acc => amount (account_total a) + acc) 0 accounts.

(** Modelled from the spec: a section of the statement in the ['total']
    display mode (no per-period columns). *)
Definition accountsSection (title : string) (accounts : list IProfitLossSheetAccount)
  : IProfitLossSheetAccountsSection :=
  {| sectionTitle := title; entryNormal := credit; section_accounts := accounts;
     section_total := totalOf (sumAccounts accounts);
     section_totalPeriods := None |}.

Definition totalSection (n : Z) : IProfitLossSheetTotalSection :=
  {| total := totalOf n; totalPeriods := None |}.

(** Modelled from the spec: the statement over the accounts of the four
    top-level sections; gross profit = income - cost of sales, operating
    profit = gross profit - expenses, net income = operating profit - other
    expenses. *)
Definition profitLossStatement
    (incomeAccounts costOfSalesAccounts expensesAccounts otherExpensesAccounts
       : list IProfitLossSheetAccount) : IProfitLossSheetStatement :=
  let income := accountsSection "Income" incomeAccounts in
  let costOfSales := accountsSection "Cost of sales" costOfSalesAccounts in
  let expenses := accountsSection "Expenses" expensesAccounts in
  let otherExpenses := accountsSection "Other expenses" otherExpensesAccounts in
  let grossProfit :=
    amount (section_total income) - amount (section_total costOfSales) in
  let operatingProfit := grossProfit - amount (section_total expenses) in
  let netIncome := operatingProfit - amount (section_total otherExpenses) in
  {| income := income; costOfSales := costOfSales; expenses := expenses;
     otherExpenses := otherExpenses;
     netIncome := totalSection netIncome;
     operatingProfit := totalSection operatingProfit;
     grossProfit := totalSection grossProfit |}.

End Shaping.

(** An account of the sheet with the given total. *)
Definition sheetAccount (id : Z) (label : string) (n : Z) : IProfitLossSheetAccount :=
  {| account_id := id; account_index := id; account_name := label;
     account_code := ""; parentAccountId := 0; hasTransactions := true;
     account_total := totalOf (fun _ => "") "USD" n;
     account_totalPeriods := [] |}.

End ProfitLossSheet.

(** ** The vendors reducer

    The reducer that follows the configuration in
    [packages/server/src/config/index.ts]: a [createReducer] over the state
    of the vendors list.  The handlers it spreads in from
    [viewPaginationSetReducer] and [createTableQueryReducers] are not under
    src/ and are left out, with their action types. *)

Module VendorsReducer.

(** A vendor object as the API returns it: its [id] and its other
    properties, by name. *)
Record Vendor : Type := mkVendor {
  vendor_id : Z;
  vendor_props : gmap string string
}.

(** [{ ...old, ...vendor }], where [old] is a stored vendor or [{}]: the
    properties of [vendor] win, the others of [old] stay. *)
Definition spread (old : option Vendor) (vendor : Vendor) : Vendor :=
  {| vendor_id := vendor_id vendor;
     vendor_props := vendor_props vendor ∪ from_option vendor_props ∅ old |}.

(** A view: its [pages] (absent until a page is set), each with the [ids] of
    its vendors, and its other properties. *)
Record View : Type := mkView {
  pages : option (gmap Z (list Z));
  view_props : gmap string string
}.

Record State : Type := mkState {
  items : gmap Z Vendor;
  views : gmap Z View;
  loading : bool;
  currentViewId : Z;
  selectedRows : list Z;
  tableQuery : Z * Z
}.

Definition initialState : State :=
  {| items := ∅; views := ∅; loading := false; currentViewId := -1;
     selectedRows := []; tableQuery := (12, 1) |}.

(** The actions of the handlers, with their payloads. *)
Inductive Action : Type :=
| VENDOR_SET (id : Z) (vendor : Vendor)
| VENDORS_TABLE_LOADING (loading : bool)
| VENDORS_ITEMS_SET (vendors : list Vendor)
| VENDORS_SET_CURRENT_VIEW (currentViewId : Z)
| VENDORS_PAGE_SET (customViewId : OptionalNumber) (vendors : list Vendor) (page : Z)
| VENDOR_DELETE (id : Z)
| VENDOR_SELECTED_ROWS_SET (selectedRows : list Z).

Definition setItems (t : gmap Z Vendor) (state : State) : State :=
  {| items := t; views := views state; loading := loading state;
     currentViewId := currentViewId state; selectedRows := selectedRows state;
     tableQuery := tableQuery state |}.

Definition setViews (t : gmap Z View) (state : State) : State :=
  {| items := items state; views := t; loading := loading state;
     currentViewId := currentViewId state; selectedRows := selectedRows state;
     tableQuery := tableQuery state |}.

(** [vendors.forEach((vendor) => { _vendors[vendor.id] = { ...vendor }; })],
    from [_vendors = {}]. *)
Definition byId (vendors : list Vendor) : gmap Z Vendor :=
  fold_left (fun _vendors vendor => <[vendor_id vendor := vendor]> _vendors) vendors ∅.

(** [customViewId || -1] *)
Definition viewIdOf (customViewId : OptionalNumber) : Z :=
  match truthy customViewId with
  | Some n => n
  | None => -1
  end.

Definition reducer (state : State) (action : Action) : State :=
  match action with
  | VENDOR_SET id vendor =>
      let _vendors := items state !! id in
      setItems (<[id := spread _vendors vendor]> (items state)) state
  | VENDORS_TABLE_LOADING l =>
      {| items := items state; views := views state; loading := l;
         currentViewId := currentViewId state; selectedRows := selectedRows state;
         tableQuery := tableQuery state |}
  | VENDORS_ITEMS_SET vendors =>
      let _vendors := byId vendors in
      setItems (_vendors ∪ items state) state
  | VENDORS_SET_CURRENT_VIEW v =>
      {| items := items state; views := views state; loading := loading state;
         currentViewId := v; selectedRows := selectedRows state;
         tableQuery := tableQuery state |}
  | VENDORS_PAGE_SET customViewId vendors page =>
      let viewId := viewIdOf customViewId in
      let view := views state !! viewId in
      let oldPages := default ∅ (view ≫= pages) in
      setViews
        (<[viewId :=
             {| pages := Some (<[page := map vendor_id vendors]> oldPages);
                view_props := from_option view_props ∅ view |}]> (views state))
        state
  | VENDOR_DELETE id =>
      match items state !! id with
      | Some _ => setItems (delete id (items state)) state
      | None => state
      end
  | VENDOR_SELECTED_ROWS_SET rows =>
      {| items := items state; views := views state; loading := loading state;
         currentViewId := currentViewId state; selectedRows := rows;
         tableQuery := tableQuery state |}
  end.

(** A run of the store: the actions in the order they are dispatched. *)
Definition dispatchAll (state : State) (actions : list Action) : State :=
  fold_left reducer actions state.

(** Every stored vendor is filed under its own id. *)
Definition keyed (state : State) : Prop :=
  forall k v, items state !! k = Some v -> vendor_id v = k.

(** A [VENDOR_SET] whose [id] is the id of the vendor it carries. *)
Definition namesItsVendor (action : Action) : Prop :=
  match action with
  | VENDOR_SET id vendor => vendor_id vendor = id
  | _ => True
  end.

End VendorsReducer.

(** ** Journal form errors

    [transformErrors] of [client/src/containers/Accounting/utils.js]: it
    turns the errors of an API response into the errors of the journal form
    and into toast messages. *)

Module AccountingUtils.

Definition JOURNAL_NUMBER_ALREADY_EXISTS : string := "JOURNAL.NUMBER.ALREADY.EXISTS".
Definition RECEIVABLE_ENTRIES_HAS_NO_CUSTOMERS : string :=
  "RECEIVABLE.ENTRIES.HAS.NO.CUSTOMERS".
Definition ENTRIES_SHOULD_ASSIGN_WITH_CONTACT : string :=
  "ENTRIES_SHOULD_ASSIGN_WITH_CONTACT".

(** An error of the response, with the properties the function reads:
    [type], [indexes], [meta.contact_type] and [meta.indexes]. *)
Record ResError : Set := mkResError {
  type : string;
  indexes : list Z;
  meta_contact_type : string;
  meta_indexes : list Z
}.

(** The errors object of the form: [entries], an array of objects from
    property to message, filled only at the indexes that have an error, and
    the other properties, by name ([journal_number] is one of them). *)
Record FormErrors : Type := mkFormErrors {
  fields : gmap string string;
  entries : gmap Z (gmap string string)
}.

(** [setWith(newErrors, `entries.[${index}].${prop}`, message)]: the entry at
    [index] gets the property, and is created when it is not there. *)
Definition setEntry (index : Z) (prop message : string) (newErrors : FormErrors)
  : FormErrors :=
  {| fields := fields newErrors;
     entries :=
       <[index := <[prop := message]> (default ∅ (entries newErrors !! index))]>
         (entries newErrors) |}.

(** [setWith(newErrors, 'journal_number', message)] *)
Definition setField (key message : string) (newErrors : FormErrors) : FormErrors :=
  {| fields := <[key := message]> (fields newErrors); entries := entries newErrors |}.

Section TransformErrors.

(** [formatMessage({ id })] of [services/intl]. *)
Variable formatMessage : string -> string.

(** [resErrors.find((e) => e.type === errorType)] *)
Definition getError (resErrors : list ResError) (errorType : string) : option ResError :=
  List.find (fun e => bool_decide (type e = errorType)) resErrors.

Definition setEntriesErrors (indexes : list Z) (prop message : string)
    (newErrors : FormErrors) : FormErrors :=
  fold_left
    (fun newErrors i =>
       let index := Z.max (i - 1) 0 in
       setEntry index prop message newErrors)
    indexes newErrors.

(** The function gives [setErrors] the new errors object, and shows a toast
    with the messages when there is one at least: the result holds both. *)
Definition transformErrors (resErrors : list ResError) (errors : FormErrors)
  : FormErrors * option (list string) :=
  let toastMessages := [] in
  let newErrors := {| fields := fields errors; entries := ∅ |} in
  let '(toastMessages, newErrors) :=
    match getError resErrors RECEIVABLE_ENTRIES_HAS_NO_CUSTOMERS with
    | Some error =>
        (toastMessages
           ++ [formatMessage "should_select_customers_with_entries_have_receivable_account"],
         setEntriesErrors (indexes error) "contact_id" "error" newErrors)
    | None => (toastMessages, newErrors)
    end in
  let '(toastMessages, newErrors) :=
    match getError resErrors ENTRIES_SHOULD_ASSIGN_WITH_CONTACT with
    | Some error =>
        let toastMessages :=
          if bool_decide (meta_contact_type error = "customer")
          then toastMessages
                 ++ [formatMessage "receivable_accounts_should_assign_with_customers"]
          else toastMessages in
        let toastMessages :=
          if bool_decide (meta_contact_type error = "vendor")
          then toastMessages
                 ++ [formatMessage "payable_accounts_should_assign_with_vendors"]
          else toastMessages in
        (toastMessages,
         setEntriesErrors (meta_indexes error) "contact_id" "error" newErrors)
    | None => (toastMessages, newErrors)
    end in
  let newErrors :=
    match getError resErrors JOURNAL_NUMBER_ALREADY_EXISTS with
    | Some error =>
        setField "journal_number" (formatMessage "journal_number_is_already_used")
          newErrors
    | None => newErrors
    end in
  (newErrors,
   if bool_decide (0 < length toastMessages)%nat then Some toastMessages else None).

End TransformErrors.

(** The indexes that the response flags: those of the first receivable error
    and of the first contact error, if any. *)
Definition flagged (resErrors : list ResError) : list Z :=
  from_option indexes [] (getError resErrors RECEIVABLE_ENTRIES_HAS_NO_CUSTOMERS)
  ++ from_option meta_indexes [] (getError resErrors ENTRIES_SHOULD_ASSIGN_WITH_CONTACT).

(** Every entry that has an error has the one property [p] with message
    [m]. *)
Definition rowsOnly (p m : string) (e : FormErrors) : Prop :=
  forall r row, entries e !! r = Some row -> row = {[p := m]}.

End AccountingUtils.

(** * Properties *)

Lemma Validation_run (m : Async unit) (st : Tenant) :
  Validation m ->
  m st = match rejection (m st) with
         | Some e => Rejected (mkServiceError e) st
         | None => Resolved tt st
         end.
Proof.
  intros Hm. specialize (Hm st).
  destruct (m st) as [[] st' | [e] st']; simpl in *; by subst.
Qed.

Lemma await_Validation {B} (m : Async unit) (k : unit -> Async B) (st : Tenant) :
  Validation m ->
  await m k st = match rejection (m st) with
                 | Some e => Rejected (mkServiceError e) st
                 | None => k tt st
                 end.
Proof.
  intros Hm. unfold await. rewrite (Validation_run m st Hm).
  by destruct (rejection (m st)).
Qed.

Lemma Validation_resolve : Validation (resolve tt).
Proof. by intros st. Qed.

Lemma Validation_throw e : Validation (throw e).
Proof. by intros st. Qed.

Lemma Validation_await (m : Async unit) (k : unit -> Async unit) :
  Validation m -> (forall u, Validation (k u)) -> Validation (await m k).
Proof.
  intros Hm Hk st. rewrite (await_Validation m k st Hm).
  destruct (rejection (m st)); [done | apply Hk].
Qed.

Lemma Validation_ifTruthy v (validate : Z -> Async unit) :
  (forall n, Validation (validate n)) -> Validation (ifTruthy v validate).
Proof.
  intros H. unfold ifTruthy. destruct (truthy v); [apply H | apply Validation_resolve].
Qed.

Lemma Validation_validateCategoryNameUniquiness n x :
  Validation (validateCategoryNameUniquiness n x).
Proof.
  intros st. unfold validateCategoryNameUniquiness, mbind, Async_bind, await, read.
  by destruct (findOne _ _).
Qed.

Lemma Validation_validateSellAccount n : Validation (validateSellAccount n).
Proof.
  intros st. unfold validateSellAccount, mbind, Async_bind, await, read.
  destruct (findById _ _) as [a|]; [|done]. by destruct (negb _).
Qed.

Lemma Validation_validateCostAccount n : Validation (validateCostAccount n).
Proof.
  intros st. unfold validateCostAccount, mbind, Async_bind, await, read.
  destruct (findById _ _) as [a|]; [|done]. by destruct (negb _).
Qed.

Lemma Validation_validateInventoryAccount n : Validation (validateInventoryAccount n).
Proof.
  intros st. unfold validateInventoryAccount, mbind, Async_bind, await, read.
  destruct (findById _ _) as [a|]; [|done]. by destruct (negb _).
Qed.

Lemma Validation_getItemCategoriesOrThrowError ids :
  Validation (getItemCategoriesOrThrowError ids).
Proof.
  intros st. unfold getItemCategoriesOrThrowError, mbind, Async_bind, await, read.
  by case_bool_decide.
Qed.

Create HintDb validation.
#[global] Hint Resolve Validation_resolve Validation_throw Validation_await
  Validation_ifTruthy Validation_validateCategoryNameUniquiness
  Validation_validateSellAccount Validation_validateCostAccount
  Validation_validateInventoryAccount Validation_getItemCategoriesOrThrowError
  : validation.

(** ** What each method does, as one equation *)

Lemma findOne_is_Some {R} (cond : Z -> R -> bool) (t : gmap Z R) :
  is_Some (findOne cond t) <-> exists id r, t !! id = Some r /\ cond id r = true.
Proof.
  unfold findOne. split.
  - intros [[id r] Hf]. apply find_some in Hf as [Hin Hc].
    apply list_elem_of_In, elem_of_map_to_list in Hin. eauto.
  - intros (id & r & Hl & Hc).
    destruct (find _ _) as [p|] eqn:Hf; [by eexists|].
    apply elem_of_map_to_list, list_elem_of_In in Hl.
    apply (find_none _ _ Hf) in Hl. simpl in Hl. congruence.
Qed.

Lemma nameQuery_true n x id c :
  nameQuery n x id c = true <-> row_name c = n /\ Some id <> truthy x.
Proof.
  unfold nameQuery. rewrite andb_true_iff, bool_decide_eq_true.
  destruct (truthy x) as [k|].
  - rewrite negb_true_iff, Z.eqb_neq. split; intros [? ?]; split; congruence.
  - split; intros [? ?]; split; done.
Qed.

Lemma rejection_validateCategoryNameUniquiness n x st :
  (nameTaken st n (truthy x) /\
   rejection (validateCategoryNameUniquiness n x st) = Some CATEGORY_NAME_EXISTS)
  \/ (~ nameTaken st n (truthy x) /\
      rejection (validateCategoryNameUniquiness n x st) = None).
Proof.
  unfold validateCategoryNameUniquiness, mbind, Async_bind, await, read.
  destruct (findOne _ _) as [p|] eqn:Hf.
  - left. split; [|done].
    destruct (proj1 (findOne_is_Some _ _) (mk_is_Some _ _ Hf)) as (id & c & Hl & Hq).
    apply nameQuery_true in Hq as [? ?]. by exists id, c.
  - right. split; [|done]. intros (id & c & Hl & Hn & Hx).
    destruct (proj2 (findOne_is_Some (nameQuery n x) (itemCategories st))) as [? ?];
      [|congruence].
    exists id, c. split; [done|]. by apply nameQuery_true.
Qed.

Lemma nextId_fresh {R} (t : gmap Z R) : t !! nextId t = None.
Proof.
  assert (forall (l : list Z) k, k ∈ l -> k <= foldr Z.max 0 l) as Hmax.
  { induction l as [|y l IH]; intros k Hk.
    - by apply not_elem_of_nil in Hk.
    - apply elem_of_cons in Hk as [-> | Hk]; simpl; [lia|].
      specialize (IH k Hk). lia. }
  destruct (t !! nextId t) as [r|] eqn:Hl; [|done]. exfalso.
  assert (nextId t ∈ (map_to_list t).*1) as Hin.
  { apply list_elem_of_fmap. exists (nextId t, r). split; [done|].
    by apply elem_of_map_to_list. }
  apply Hmax in Hin. unfold nextId in Hin. lia.
Qed.

(** An insert adds a row and leaves the stored ones alone. *)
Lemma created_keeps_rows otd user st k c :
  itemCategories st !! k = Some c -> itemCategories (created otd user st) !! k = Some c.
Proof.
  intros Hk. simpl. rewrite lookup_insert_ne; [done|].
  intros Heq. rewrite <- Heq in Hk. by rewrite nextId_fresh in Hk.
Qed.

Lemma Validation_accountValidations otd : Validation (accountValidations otd).
Proof. unfold accountValidations, mbind, Async_bind. auto 10 with validation. Qed.

Lemma newItemCategory_run otd user st :
  newItemCategory otd user st =
  match rejection (validateCategoryNameUniquiness (name otd) JsUndefined st) with
  | Some e => Rejected (mkServiceError e) st
  | None =>
      match rejection (accountValidations otd st) with
      | Some e => Rejected (mkServiceError e) st
      | None =>
          Resolved (nextId (itemCategories st),
                    insertedRow (transformOTDToObject otd user))
                   (created otd user st)
      end
  end.
Proof.
  unfold newItemCategory, accountValidations, mbind, Async_bind.
  rewrite !await_Validation by auto 10 with validation.
  destruct (rejection (validateCategoryNameUniquiness _ _ st)); [done|].
  destruct (rejection (ifTruthy (sellAccountId otd) _ st)); [done|].
  destruct (rejection (ifTruthy (costAccountId otd) _ st)); [done|].
  rewrite (Validation_run (ifTruthy (inventoryAccountId otd) _) st)
    by auto with validation.
  by destruct (rejection (ifTruthy (inventoryAccountId otd) _ st)).
Qed.

Lemma editItemCategory_run id otd user st :
  editItemCategory id otd user st =
  match itemCategories st !! id with
  | None => Rejected (mkServiceError CATEGORY_NOT_FOUND) st
  | Some old =>
      match rejection (validateCategoryNameUniquiness (name otd) (JsNum id) st) with
      | Some e => Rejected (mkServiceError e) st
      | None =>
          match rejection (accountValidations otd st) with
          | Some e => Rejected (mkServiceError e) st
          | None =>
              Resolved (Some (patchedRow (transformOTDToObject otd user) old))
                       (edited id otd user old st)
          end
      end
  end.
Proof.
  unfold editItemCategory, accountValidations, mbind, Async_bind.
  unfold getItemCategoryOrThrowError, mbind, Async_bind, read, findById.
  unfold await at 1 2. destruct (itemCategories st !! id) as [old|] eqn:Hold; [|done].
  unfold resolve at 1.
  rewrite !await_Validation by auto 10 with validation.
  destruct (rejection (validateCategoryNameUniquiness _ _ st)); [done|].
  destruct (rejection (ifTruthy (sellAccountId otd) _ st)); [done|].
  destruct (rejection (ifTruthy (costAccountId otd) _ st)); [done|].
  rewrite (Validation_run (ifTruthy (inventoryAccountId otd) _) st)
    by auto with validation.
  destruct (rejection (ifTruthy (inventoryAccountId otd) _ st)); [done|].
  unfold await, ItemCategory_patchAndFetchById, findById. by rewrite Hold.
Qed.

Lemma deleteItemCategory_run id user st :
  deleteItemCategory id user st =
  match itemCategories st !! id with
  | None => Rejected (mkServiceError CATEGORY_NOT_FOUND) st
  | Some _ =>
      (ItemCategory_deleteById id;; dispatch onDeleted) (unlinked [id] st)
  end.
Proof.
  unfold deleteItemCategory, mbind, Async_bind.
  unfold getItemCategoryOrThrowError, mbind, Async_bind, read, findById.
  unfold await at 1 2. by destruct (itemCategories st !! id).
Qed.

Lemma deleteItemCategories_run ids user st :
  deleteItemCategories ids user st =
  match rejection (getItemCategoriesOrThrowError ids st) with
  | Some e => Rejected (mkServiceError e) st
  | None =>
      (ItemCategory_deleteWhereIdIn ids;; dispatch onBulkDeleted) (unlinked ids st)
  end.
Proof.
  unfold deleteItemCategories, mbind, Async_bind.
  rewrite await_Validation by auto with validation.
  by destruct (rejection _).
Qed.

Lemma rejection_ifTruthy_sell st otd :
  rejection (ifTruthy (sellAccountId otd) validateSellAccount st) = sellVerdict st otd.
Proof.
  unfold ifTruthy, sellVerdict, accountVerdict. destruct (truthy _) as [n|]; [|done].
  unfold validateSellAccount, mbind, Async_bind, await, read, findById.
  destruct (accounts st !! n) as [a|]; [|done]. by destruct (isRootType a INCOME).
Qed.

Lemma rejection_ifTruthy_cost st otd :
  rejection (ifTruthy (costAccountId otd) validateCostAccount st) = costVerdict st otd.
Proof.
  unfold ifTruthy, costVerdict, accountVerdict. destruct (truthy _) as [n|]; [|done].
  unfold validateCostAccount, mbind, Async_bind, await, read, findById.
  destruct (accounts st !! n) as [a|]; [|done]. by destruct (isRootType a EXPENSE).
Qed.

Lemma rejection_ifTruthy_inventory st otd :
  rejection (ifTruthy (inventoryAccountId otd) validateInventoryAccount st)
  = inventoryVerdict st otd.
Proof.
  unfold ifTruthy, inventoryVerdict, accountVerdict.
  destruct (truthy _) as [n|]; [|done].
  unfold validateInventoryAccount, mbind, Async_bind, await, read, findById.
  destruct (accounts st !! n) as [a|]; [|done]. by destruct (isAccountType a INVENTORY).
Qed.

Lemma rejection_accountValidations st otd :
  rejection (accountValidations otd st) = accountChecks st otd.
Proof.
  unfold accountValidations, accountChecks, mbind, Async_bind.
  rewrite !await_Validation by auto 10 with validation.
  rewrite <- rejection_ifTruthy_sell, <- rejection_ifTruthy_cost,
    <- rejection_ifTruthy_inventory.
  destruct (rejection (ifTruthy (sellAccountId otd) _ st)); [done|].
  by destruct (rejection (ifTruthy (costAccountId otd) _ st)).
Qed.

Lemma accountVerdict_cases st ref hasRole notFound wrongRole :
  accountVerdict st ref hasRole notFound wrongRole = None
  \/ (accountVerdict st ref hasRole notFound wrongRole = Some notFound
      /\ truthy ref <> None)
  \/ (accountVerdict st ref hasRole notFound wrongRole = Some wrongRole
      /\ truthy ref <> None).
Proof.
  unfold accountVerdict. destruct (truthy ref) as [n|]; [|by left].
  destruct (accounts st !! n) as [a|]; [|by right; left].
  destruct (hasRole a); [by left | by right; right].
Qed.

Lemma falsy_truthy v : falsy v <-> truthy v = None.
Proof.
  unfold falsy. split.
  - by intros [-> | [-> | ->]].
  - destruct v as [| | n]; simpl; [tauto | tauto |].
    destruct (Z.eqb_spec n 0) as [-> | ?]; [tauto | done].
Qed.

Lemma accountChecks_not_name_exists st otd :
  accountChecks st otd <> Some CATEGORY_NAME_EXISTS.
Proof.
  unfold accountChecks, sellVerdict, costVerdict, inventoryVerdict.
  destruct (accountVerdict_cases st (sellAccountId otd) (fun a => isRootType a INCOME)
              SELL_ACCOUNT_NOT_FOUND SELL_ACCOUNT_NOT_INCOME)
    as [-> | [[-> _] | [-> _]]]; [|done..].
  destruct (accountVerdict_cases st (costAccountId otd) (fun a => isRootType a EXPENSE)
              COST_ACCOUNT_NOT_FOUMD COST_ACCOUNT_NOT_COGS)
    as [-> | [[-> _] | [-> _]]]; [|done..].
  destruct (accountVerdict_cases st (inventoryAccountId otd)
              (fun a => isAccountType a INVENTORY)
              INVENTORY_ACCOUNT_NOT_FOUND INVENTORY_ACCOUNT_NOT_INVENTORY)
    as [-> | [[-> _] | [-> _]]]; done.
Qed.

(** ** Name uniqueness *)

(** C1 (as the code has it). [newItemCategory] raises [CATEGORY_NAME_EXISTS]
    exactly when some stored category of the tenant bears the submitted name;
    [editItemCategory] of a stored category (keys are never [0]) raises it
    exactly when some stored category other than the edited one bears the
    submitted name; names are compared as exact strings.  An edit of an id
    that is not stored raises [CATEGORY_NOT_FOUND], whatever the names. *)
Theorem name_conflict_iff_name_taken :
  (forall st otd user,
     rejection (newItemCategory otd user st) = Some CATEGORY_NAME_EXISTS
     <-> nameTaken st (name otd) None)
  /\ (forall st id otd user,
        is_Some (itemCategories st !! id) -> id <> 0 ->
        (rejection (editItemCategory id otd user st) = Some CATEGORY_NAME_EXISTS
         <-> nameTaken st (name otd) (Some id)))
  /\ (forall st id otd user,
        itemCategories st !! id = None ->
        rejection (editItemCategory id otd user st) = Some CATEGORY_NOT_FOUND).
Proof.
  split; [|split].
  - intros st otd user. rewrite newItemCategory_run.
    destruct (rejection_validateCategoryNameUniquiness (name otd) JsUndefined st)
      as [[Ht ->] | [Ht ->]]; simpl in *; [done|].
    pose proof (accountChecks_not_name_exists st otd) as Hacc.
    rewrite <- rejection_accountValidations in Hacc.
    destruct (rejection (accountValidations otd st)); simpl; split; intros; try done;
      congruence.
  - intros st id otd user [old Hold] Hid. rewrite editItemCategory_run, Hold.
    assert (truthy (JsNum id) = Some id) as Htr.
    { simpl. by destruct (Z.eqb_spec id 0). }
    destruct (rejection_validateCategoryNameUniquiness (name otd) (JsNum id) st)
      as [[Ht ->] | [Ht ->]]; rewrite Htr in Ht; simpl; [done|].
    pose proof (accountChecks_not_name_exists st otd) as Hacc.
    rewrite <- rejection_accountValidations in Hacc.
    destruct (rejection (accountValidations otd st)); simpl; split; intros; try done;
      congruence.
  - intros st id otd user Hnone. by rewrite editItemCategory_run, Hnone.
Qed.

Lemma name_conflict_iff_name_taken_witness :
  is_Some (itemCategories demoTenant !! 3) /\ 3 <> 0
  /\ (rejection (editItemCategory 3 (mkOTD "Software" JsNull JsNull JsNull)
                   demoUser demoTenant) = Some CATEGORY_NAME_EXISTS
      <-> nameTaken demoTenant "Software" (Some 3))
  /\ rejection (editItemCategory 3 (mkOTD "Software" JsNull JsNull JsNull)
                  demoUser demoTenant) = Some CATEGORY_NAME_EXISTS
  /\ rejection (editItemCategory 3 (mkOTD "Hardware" JsNull JsNull JsNull)
                  demoUser demoTenant) = None
  /\ rejection (editItemCategory 3 (mkOTD "hardware" JsNull JsNull JsNull)
                  demoUser demoTenant) = None.
Proof.
  split; [by eexists|]. split; [lia|]. split.
  - apply (proj1 (proj2 name_conflict_iff_name_taken) demoTenant 3
             (mkOTD "Software" JsNull JsNull JsNull) demoUser);
      [by eexists | lia].
  - repeat split; vm_compute; reflexivity.
Defined.

(** C1 as the specification words it, for every edit call, fails on an edit
    of an id that is not stored: category 3 bears the submitted name and is
    not the edited one, and yet the call raises [CATEGORY_NOT_FOUND], not the
    name conflict. *)
Lemma edit_missing_category_is_not_name_conflict :
  ~ (rejection (editItemCategory 9 (mkOTD "Hardware" JsNull JsNull JsNull)
                  demoUser demoTenant) = Some CATEGORY_NAME_EXISTS
     <-> nameTaken demoTenant "Hardware" (Some 9)).
Proof.
  intros [_ H].
  assert (nameTaken demoTenant "Hardware" (Some 9)) as Ht.
  { exists 3, (mkCategory "Hardware" None None None 1). by repeat split. }
  apply H in Ht. vm_compute in Ht. discriminate Ht.
Qed.

(** ** Account references *)

(** C4 (as the code has it). Once the checks that come first have passed
    (the name for a create; the category's existence and the name for an
    edit), the supplied account
    references are validated in turn: a create or edit call is rejected with
    the first account error that [accountChecks] finds -- the not-found error
    of the reference when no account has the id, its role-mismatch error when
    the account has the wrong role -- with the store as it was, and resolves
    when every reference passes. *)
Theorem account_references_validated_in_turn :
  forall st otd user,
    (~ nameTaken st (name otd) None ->
     match accountChecks st otd with
     | Some e => newItemCategory otd user st = Rejected (mkServiceError e) st
     | None => isResolved (newItemCategory otd user st) = true
     end)
    /\ (forall id,
          is_Some (itemCategories st !! id) ->
          ~ nameTaken st (name otd) (truthy (JsNum id)) ->
          match accountChecks st otd with
          | Some e => editItemCategory id otd user st = Rejected (mkServiceError e) st
          | None => isResolved (editItemCategory id otd user st) = true
          end).
Proof.
  intros st otd user. split.
  - intros Hfree. rewrite newItemCategory_run.
    destruct (rejection_validateCategoryNameUniquiness (name otd) JsUndefined st)
      as [[Ht _] | [_ ->]]; [done|].
    rewrite rejection_accountValidations. by destruct (accountChecks st otd).
  - intros id [old Hold] Hfree. rewrite editItemCategory_run, Hold.
    destruct (rejection_validateCategoryNameUniquiness (name otd) (JsNum id) st)
      as [[Ht _] | [_ ->]]; [done|].
    rewrite rejection_accountValidations. by destruct (accountChecks st otd).
Qed.

(** The name check, run as a query, decides [nameTaken]. *)
Lemma name_free_by_query st n x :
  findOne (nameQuery n x) (itemCategories st) = None ->
  ~ nameTaken st n (truthy x).
Proof.
  intros Hq (id & c & Hl & Hn & Hx).
  destruct (proj2 (findOne_is_Some (nameQuery n x) (itemCategories st))) as [? ?];
    [|congruence].
  exists id, c. split; [done|]. by apply nameQuery_true.
Qed.

Lemma account_references_validated_in_turn_witness :
  newItemCategory (mkOTD "Tools" (JsNum 11) (JsNum 99) JsNull) demoUser demoTenant
  = Rejected (mkServiceError SELL_ACCOUNT_NOT_INCOME) demoTenant
  /\ newItemCategory (mkOTD "Tools" (JsNum 10) (JsNum 99) JsNull) demoUser demoTenant
     = Rejected (mkServiceError COST_ACCOUNT_NOT_FOUMD) demoTenant
  /\ isResolved
       (newItemCategory (mkOTD "Tools" (JsNum 10) (JsNum 11) (JsNum 12)) demoUser
          demoTenant) = true
  /\ editItemCategory 3 (mkOTD "Tools" (JsNum 10) (JsNum 11) (JsNum 10)) demoUser
       demoTenant
     = Rejected (mkServiceError INVENTORY_ACCOUNT_NOT_INVENTORY) demoTenant.
Proof.
  split; [|split; [|split]].
  - apply (proj1 (account_references_validated_in_turn demoTenant
                    (mkOTD "Tools" (JsNum 11) (JsNum 99) JsNull) demoUser)).
    apply (name_free_by_query demoTenant "Tools" JsUndefined). reflexivity.
  - apply (proj1 (account_references_validated_in_turn demoTenant
                    (mkOTD "Tools" (JsNum 10) (JsNum 99) JsNull) demoUser)).
    apply (name_free_by_query demoTenant "Tools" JsUndefined). reflexivity.
  - apply (proj1 (account_references_validated_in_turn demoTenant
                    (mkOTD "Tools" (JsNum 10) (JsNum 11) (JsNum 12)) demoUser)).
    apply (name_free_by_query demoTenant "Tools" JsUndefined). reflexivity.
  - apply (proj2 (account_references_validated_in_turn demoTenant
                    (mkOTD "Tools" (JsNum 10) (JsNum 11) (JsNum 10)) demoUser) 3).
    + by eexists.
    + apply (name_free_by_query demoTenant "Tools" (JsNum 3)). reflexivity.
Defined.

(** C4 as the specification words it, for every create or edit call, fails
    on a call that an earlier guard stops.  A create under the taken name
    "Hardware" with the sell account 99, which no account has, is rejected
    with [CATEGORY_NAME_EXISTS], not with [SELL_ACCOUNT_NOT_FOUND]; an edit
    of the id 9, which is not stored, with the same payload is rejected with
    [CATEGORY_NOT_FOUND]. *)
Lemma earlier_guard_preempts_account_checks :
  accounts demoTenant !! 99 = None
  /\ accountChecks demoTenant (mkOTD "Hardware" (JsNum 99) JsNull JsNull)
     = Some SELL_ACCOUNT_NOT_FOUND
  /\ ~ match accountChecks demoTenant (mkOTD "Hardware" (JsNum 99) JsNull JsNull) with
       | Some e =>
           newItemCategory (mkOTD "Hardware" (JsNum 99) JsNull JsNull) demoUser
             demoTenant = Rejected (mkServiceError e) demoTenant
       | None =>
           isResolved (newItemCategory (mkOTD "Hardware" (JsNum 99) JsNull JsNull)
                         demoUser demoTenant) = true
       end
  /\ ~ match accountChecks demoTenant (mkOTD "Hardware" (JsNum 99) JsNull JsNull) with
       | Some e =>
           editItemCategory 9 (mkOTD "Hardware" (JsNum 99) JsNull JsNull) demoUser
             demoTenant = Rejected (mkServiceError e) demoTenant
       | None =>
           isResolved (editItemCategory 9 (mkOTD "Hardware" (JsNum 99) JsNull JsNull)
                         demoUser demoTenant) = true
       end.
Proof.
  split; [reflexivity|]. split; [reflexivity|]. split.
  - intros H. vm_compute in H. discriminate H.
  - intros H. vm_compute in H. discriminate H.
Qed.

Lemma newItemCategory_rejections st otd user e :
  rejection (newItemCategory otd user st) = Some e ->
  e = CATEGORY_NAME_EXISTS \/ accountChecks st otd = Some e.
Proof.
  rewrite newItemCategory_run.
  destruct (rejection_validateCategoryNameUniquiness (name otd) JsUndefined st)
    as [[_ ->] | [_ ->]]; simpl; [left; congruence|].
  rewrite rejection_accountValidations.
  destruct (accountChecks st otd); simpl; [by right | done].
Qed.

Lemma editItemCategory_rejections st id otd user e :
  rejection (editItemCategory id otd user st) = Some e ->
  e = CATEGORY_NOT_FOUND \/ e = CATEGORY_NAME_EXISTS \/ accountChecks st otd = Some e.
Proof.
  rewrite editItemCategory_run.
  destruct (itemCategories st !! id); simpl; [|left; congruence].
  destruct (rejection_validateCategoryNameUniquiness (name otd) (JsNum id) st)
    as [[_ ->] | [_ ->]]; simpl; [right; left; congruence|].
  rewrite rejection_accountValidations.
  destruct (accountChecks st otd); simpl; [by right; right | done].
Qed.

Lemma accountVerdict_Some st ref hasRole notFound wrongRole e :
  accountVerdict st ref hasRole notFound wrongRole = Some e ->
  (e = notFound \/ e = wrongRole) /\ truthy ref <> None.
Proof.
  destruct (accountVerdict_cases st ref hasRole notFound wrongRole)
    as [-> | [[-> ?] | [-> ?]]]; [done | |]; intros [= <-]; auto.
Qed.

Lemma accountChecks_Some st otd e :
  accountChecks st otd = Some e ->
  sellVerdict st otd = Some e \/ costVerdict st otd = Some e
  \/ inventoryVerdict st otd = Some e.
Proof.
  unfold accountChecks. destruct (sellVerdict st otd); [by left|].
  destruct (costVerdict st otd); [by right; left | by right; right].
Qed.

(** Which reference an account error belongs to. *)
Lemma accountChecks_blames st otd e :
  accountChecks st otd = Some e ->
  (sellError e
   /\ truthy (sellAccountId otd) <> None)
  \/ (costError e
      /\ truthy (costAccountId otd) <> None)
  \/ (inventoryError e
      /\ truthy (inventoryAccountId otd) <> None).
Proof.
  intros H. apply accountChecks_Some in H as [H | [H | H]];
    apply accountVerdict_Some in H as [[-> | ->] ?];
    [left | left | right; left | right; left | right; right | right; right];
    (split; [|done]); unfold sellError, costError, inventoryError; auto.
Qed.

(** C9. The guards [if (itemCategoryOTD.sellAccountId)] and its two siblings
    let a validation run only on a truthy id: on [0], [null] or [undefined]
    the guarded validation is skipped, and neither [newItemCategory] nor
    [editItemCategory] raises the not-found or the role-mismatch error of
    that reference. *)
Theorem falsy_account_id_is_not_validated :
  forall st otd user id,
    (falsy (sellAccountId otd) ->
     ifTruthy (sellAccountId otd) validateSellAccount = resolve tt
     /\ forall e, sellError e ->
          rejection (newItemCategory otd user st) <> Some e
          /\ rejection (editItemCategory id otd user st) <> Some e)
    /\ (falsy (costAccountId otd) ->
        ifTruthy (costAccountId otd) validateCostAccount = resolve tt
        /\ forall e, costError e ->
             rejection (newItemCategory otd user st) <> Some e
             /\ rejection (editItemCategory id otd user st) <> Some e)
    /\ (falsy (inventoryAccountId otd) ->
        ifTruthy (inventoryAccountId otd) validateInventoryAccount = resolve tt
        /\ forall e, inventoryError e ->
             rejection (newItemCategory otd user st) <> Some e
             /\ rejection (editItemCategory id otd user st) <> Some e).
Proof.
  intros st otd user id.
  assert (forall e, rejection (newItemCategory otd user st) = Some e
                    \/ rejection (editItemCategory id otd user st) = Some e ->
                    e = CATEGORY_NOT_FOUND \/ e = CATEGORY_NAME_EXISTS
                    \/ accountChecks st otd = Some e) as Hrej.
  { intros e [H | H].
    - apply newItemCategory_rejections in H. tauto.
    - by apply editItemCategory_rejections in H. }
  split; [|split]; intros Hf%falsy_truthy;
    (split; [by unfold ifTruthy; rewrite Hf|]);
    intros e He; split; intros H;
    (destruct (Hrej e) as [-> | [-> | Hacc]];
       [tauto | by destruct He | by destruct He |]);
    apply accountChecks_blames in Hacc as [[He' ?] | [[He' ?] | [He' ?]]];
    try done; destruct He as [-> | ->]; by destruct He'.
Qed.

Lemma falsy_account_id_is_not_validated_witness :
  falsy (JsNum 0) /\ falsy JsNull /\ falsy JsUndefined
  /\ rejection (newItemCategory (mkOTD "Tools" (JsNum 0) JsNull JsUndefined)
                  demoUser demoTenant) <> Some SELL_ACCOUNT_NOT_FOUND
  /\ rejection (editItemCategory 3 (mkOTD "Tools" (JsNum 0) JsNull JsUndefined)
                  demoUser demoTenant) <> Some COST_ACCOUNT_NOT_FOUMD
  /\ rejection (editItemCategory 3 (mkOTD "Tools" (JsNum 0) JsNull JsUndefined)
                  demoUser demoTenant) <> Some INVENTORY_ACCOUNT_NOT_FOUND
  /\ demoTenant.(accounts) !! 0 = None
  /\ isResolved (newItemCategory (mkOTD "Tools" (JsNum 0) JsNull JsUndefined)
                   demoUser demoTenant) = true.
Proof.
  pose proof (falsy_account_id_is_not_validated demoTenant
                (mkOTD "Tools" (JsNum 0) JsNull JsUndefined) demoUser 3)
    as (Hsell & Hcost & Hinv).
  assert (falsy (JsNum 0)) as H0 by (by left).
  assert (falsy JsNull) as Hn by (by right; left).
  assert (falsy JsUndefined) as Hu by (by right; right).
  split; [done|]. split; [done|]. split; [done|].
  split; [|split; [|split; [|split]]].
  - apply (proj2 (Hsell H0) SELL_ACCOUNT_NOT_FOUND). by left.
  - apply (proj2 (Hcost Hn) COST_ACCOUNT_NOT_FOUMD). by left.
  - apply (proj2 (Hinv Hu) INVENTORY_ACCOUNT_NOT_FOUND). by left.
  - reflexivity.
  - reflexivity.
Defined.

(** ** Bulk lookup *)

Lemma stored_ids_whereIdIn (ids : list Z) (t : gmap Z IItemCategory) (i : Z) :
  i ∈ (map_to_list (whereIdIn ids t)).*1 <-> i ∈ ids /\ is_Some (t !! i).
Proof.
  unfold whereIdIn. rewrite list_elem_of_fmap. split.
  - intros ([k c] & -> & Hin). apply elem_of_map_to_list in Hin.
    apply map_lookup_filter_Some in Hin as [Hl Hk]. simpl in *. by split; [|eexists].
  - intros [Hi [c Hc]]. exists (i, c). split; [done|].
    apply elem_of_map_to_list, map_lookup_filter_Some. by split.
Qed.

Lemma rejection_getItemCategoriesOrThrowError ids st :
  ((exists i, i ∈ ids /\ itemCategories st !! i = None) /\
   rejection (getItemCategoriesOrThrowError ids st) = Some ITEM_CATEGORIES_NOT_FOUND)
  \/ ((forall i, i ∈ ids -> is_Some (itemCategories st !! i)) /\
      rejection (getItemCategoriesOrThrowError ids st) = None).
Proof.
  unfold getItemCategoriesOrThrowError, mbind, Async_bind, await, read.
  set (stored := (map_to_list (whereIdIn ids (itemCategories st))).*1).
  destruct (list_difference ids stored) as [|i l] eqn:Hd; simpl.
  - right. split; [|done]. intros i Hi.
    destruct (decide (i ∈ stored)) as [Hs | Hs].
    + by apply stored_ids_whereIdIn in Hs as [_ ?].
    + assert (i ∈ list_difference ids stored) as Hin
        by (by apply list_elem_of_difference).
      rewrite Hd in Hin. by apply not_elem_of_nil in Hin.
  - left. split.
    + exists i. assert (i ∈ list_difference ids stored) as Hin
        by (rewrite Hd; apply list_elem_of_here).
      apply list_elem_of_difference in Hin as [Hi Hs]. split; [done|].
      destruct (itemCategories st !! i) eqn:Hl; [|done].
      exfalso. apply Hs, stored_ids_whereIdIn. by split; [|eexists].
    + done.
Qed.

Lemma deleteItemCategories_missing st ids user i :
  i ∈ ids -> itemCategories st !! i = None ->
  deleteItemCategories ids user st
  = Rejected (mkServiceError ITEM_CATEGORIES_NOT_FOUND) st.
Proof.
  intros Hi Hnone. rewrite deleteItemCategories_run.
  destruct (rejection_getItemCategoriesOrThrowError ids st) as [[_ ->] | [Hall _]];
    [done|].
  apply Hall in Hi as [c Hc]. congruence.
Qed.

(** C3 (as the code has it). A bulk delete whose list holds an id with no
    stored category is rejected with [ITEM_CATEGORIES_NOT_FOUND] -- an error
    that names no id -- and the store is as it was: no category row is
    deleted, no item is unlinked, no statement is issued and no event is
    dispatched. *)
Theorem bulk_delete_with_missing_id_fails_entirely :
  forall st ids user i,
    i ∈ ids -> itemCategories st !! i = None ->
    deleteItemCategories ids user st
    = Rejected (mkServiceError ITEM_CATEGORIES_NOT_FOUND) st.
Proof. intros st ids user i. apply deleteItemCategories_missing. Qed.

Lemma bulk_delete_with_missing_id_fails_entirely_witness :
  4 ∈ [3; 9; 4] /\ 9 ∈ [3; 9; 4] /\ itemCategories demoTenant !! 9 = None
  /\ deleteItemCategories [3; 9; 4] demoUser demoTenant
     = Rejected (mkServiceError ITEM_CATEGORIES_NOT_FOUND) demoTenant.
Proof.
  assert (9 ∈ [3; 9; 4]) as H9 by (apply list_elem_of_In; simpl; tauto).
  split; [apply list_elem_of_In; simpl; tauto|]. split; [exact H9|].
  split; [reflexivity|].
  apply (bulk_delete_with_missing_id_fails_entirely demoTenant [3; 9; 4] demoUser 9 H9).
  reflexivity.
Defined.

(** C3 as the specification words it asks the error to report the missing
    id.  No reading of the error can do that: whatever ids one takes an error
    value to report, some bulk delete of a single missing id is rejected with
    an error that does not report it. *)
Lemma bulk_delete_error_reports_no_id :
  ~ exists reported : ServiceError -> list Z,
      forall st ids user,
        (exists i, i ∈ ids /\ itemCategories st !! i = None) ->
        exists e st',
          deleteItemCategories ids user st = Rejected e st'
          /\ exists i, i ∈ ids /\ itemCategories st !! i = None /\ i ∈ reported e.
Proof.
  intros [reported H].
  set (l := reported (mkServiceError ITEM_CATEGORIES_NOT_FOUND)).
  set (j := 1 + foldr Z.max 0 l).
  assert (forall x, x ∈ l -> x < j) as Hfresh.
  { unfold j. clear. induction l as [|y l IH]; intros x Hx.
    - by apply not_elem_of_nil in Hx.
    - apply elem_of_cons in Hx as [-> | Hx]; simpl; [lia|].
      specialize (IH x Hx). lia. }
  set (st := mkTenant ∅ ∅ ∅ []).
  destruct (H st [j] demoUser) as (e & st' & Hrun & i & Hi & _ & Hrep).
  { exists j. split; [apply list_elem_of_here | done]. }
  rewrite (deleteItemCategories_missing st [j] demoUser j) in Hrun;
    [|apply list_elem_of_here | done].
  injection Hrun as <- _.
  apply list_elem_of_singleton in Hi as ->.
  apply Hfresh in Hrep. lia.
Qed.

(** ** Failures and events *)

(** C6. When [newItemCategory], [editItemCategory], [deleteItemCategory] or
    [deleteItemCategories] raises an error, the store of the tenant --
    category rows, item rows and the statements issued -- is exactly as it
    was before the call: every throw comes before the first write. *)
Theorem rejected_call_leaves_store_unchanged :
  forall st user e st',
    (forall otd, newItemCategory otd user st = Rejected e st' -> st' = st)
    /\ (forall id otd, editItemCategory id otd user st = Rejected e st' -> st' = st)
    /\ (forall id, deleteItemCategory id user st = Rejected e st' -> st' = st)
    /\ (forall ids, deleteItemCategories ids user st = Rejected e st' -> st' = st).
Proof.
  intros st user e st'. split; [|split; [|split]].
  - intros otd. rewrite newItemCategory_run.
    destruct (rejection _); [congruence|]. destruct (rejection _); congruence.
  - intros id otd. rewrite editItemCategory_run.
    destruct (_ !! _); [|congruence].
    destruct (rejection _); [congruence|]. destruct (rejection _); congruence.
  - intros id. rewrite deleteItemCategory_run. by destruct (_ !! _); [|congruence].
  - intros ids. rewrite deleteItemCategories_run. by destruct (rejection _); [congruence|].
Qed.

Lemma rejected_call_leaves_store_unchanged_witness :
  stateOf (newItemCategory (mkOTD "Hardware" JsNull JsNull JsNull) demoUser demoTenant)
  = demoTenant
  /\ stateOf (editItemCategory 3 (mkOTD "Tools" (JsNum 12) JsNull JsNull) demoUser
                demoTenant) = demoTenant
  /\ stateOf (deleteItemCategory 9 demoUser demoTenant) = demoTenant
  /\ stateOf (deleteItemCategories [3; 9] demoUser demoTenant) = demoTenant.
Proof.
  split; [|split; [|split]].
  - apply (proj1 (rejected_call_leaves_store_unchanged demoTenant demoUser
                    (mkServiceError CATEGORY_NAME_EXISTS) _)
             (mkOTD "Hardware" JsNull JsNull JsNull)).
    reflexivity.
  - apply (proj1 (proj2 (rejected_call_leaves_store_unchanged demoTenant demoUser
                           (mkServiceError SELL_ACCOUNT_NOT_INCOME) _))
             3 (mkOTD "Tools" (JsNum 12) JsNull JsNull)).
    reflexivity.
  - apply (proj1 (proj2 (proj2 (rejected_call_leaves_store_unchanged demoTenant demoUser
                                  (mkServiceError CATEGORY_NOT_FOUND) _))) 9).
    reflexivity.
  - apply (proj2 (proj2 (proj2 (rejected_call_leaves_store_unchanged demoTenant demoUser
                                  (mkServiceError ITEM_CATEGORIES_NOT_FOUND) _))) [3; 9]).
    reflexivity.
Defined.

(** C7. A call that succeeds issues its write statements and then hands
    exactly one event to the dispatcher, of the kind of the call: [onCreated]
    after the insert, [onEdited] after the patch, [onDeleted] and
    [onBulkDeleted] after the items are unlinked and the rows deleted.  A call
    that fails issues nothing and dispatches nothing.  And the calls do
    succeed: a create or an edit (of a stored category) whose name is free
    and whose account references pass, a delete of a stored category, a bulk
    delete of stored categories. *)
Theorem one_event_after_the_writes :
  forall st user,
    (forall otd,
       match newItemCategory otd user st with
       | Resolved (id, _) st' =>
           effects st' = effects st ++ [InsertItemCategory id; Dispatch onCreated]
       | Rejected _ st' => effects st' = effects st
       end
       /\ (~ nameTaken st (name otd) None -> accountChecks st otd = None ->
           isResolved (newItemCategory otd user st) = true))
    /\ (forall id otd,
          match editItemCategory id otd user st with
          | Resolved _ st' =>
              effects st' = effects st ++ [PatchItemCategory id; Dispatch onEdited]
          | Rejected _ st' => effects st' = effects st
          end
          /\ (is_Some (itemCategories st !! id) ->
              ~ nameTaken st (name otd) (truthy (JsNum id)) ->
              accountChecks st otd = None ->
              isResolved (editItemCategory id otd user st) = true))
    /\ (forall id,
          match deleteItemCategory id user st with
          | Resolved _ st' =>
              effects st'
              = effects st ++ [PatchItemsCategoryNull [id]; DeleteItemCategories [id];
                               Dispatch onDeleted]
          | Rejected _ st' => effects st' = effects st
          end
          /\ (is_Some (itemCategories st !! id) ->
              isResolved (deleteItemCategory id user st) = true))
    /\ (forall ids,
          match deleteItemCategories ids user st with
          | Resolved _ st' =>
              effects st'
              = effects st ++ [PatchItemsCategoryNull ids; DeleteItemCategories ids;
                               Dispatch onBulkDeleted]
          | Rejected _ st' => effects st' = effects st
          end
          /\ ((forall i, i ∈ ids -> is_Some (itemCategories st !! i)) ->
              isResolved (deleteItemCategories ids user st) = true)).
Proof.
  intros st user. split; [|split; [|split]].
  - intros otd. rewrite newItemCategory_run. split.
    + destruct (rejection _); [done|]. destruct (rejection _); [done|].
      simpl. by rewrite <- app_assoc.
    + intros Hfree Hacc.
      destruct (rejection_validateCategoryNameUniquiness (name otd) JsUndefined st)
        as [[Ht _] | [_ ->]]; [done|].
      by rewrite rejection_accountValidations, Hacc.
  - intros id otd. rewrite editItemCategory_run. split.
    + destruct (_ !! _); [|done].
      destruct (rejection _); [done|]. destruct (rejection _); [done|].
      simpl. by rewrite <- app_assoc.
    + intros [old ->] Hfree Hacc.
      destruct (rejection_validateCategoryNameUniquiness (name otd) (JsNum id) st)
        as [[Ht _] | [_ ->]]; [done|].
      by rewrite rejection_accountValidations, Hacc.
  - intros id. rewrite deleteItemCategory_run. split.
    + destruct (_ !! _); [|done]. simpl. by rewrite <- !app_assoc.
    + by intros [c ->].
  - intros ids. rewrite deleteItemCategories_run. split.
    + destruct (rejection _); [done|]. simpl. by rewrite <- !app_assoc.
    + intros Hall.
      destruct (rejection_getItemCategoriesOrThrowError ids st)
        as [[(i & Hi & Hn) _] | [_ ->]]; [|done].
      apply Hall in Hi as [c Hc]. congruence.
Qed.

Lemma one_event_after_the_writes_witness :
  (isResolved (newItemCategory (mkOTD "Tools" (JsNum 10) JsNull JsNull) demoUser
                 demoTenant) = true
   /\ effects (stateOf (newItemCategory (mkOTD "Tools" (JsNum 10) JsNull JsNull)
                          demoUser demoTenant))
      = [InsertItemCategory 5; Dispatch onCreated])
  /\ (isResolved (editItemCategory 4 (mkOTD "Tools" JsNull JsNull JsNull) demoUser
                    demoTenant) = true
      /\ effects (stateOf (editItemCategory 4 (mkOTD "Tools" JsNull JsNull JsNull)
                             demoUser demoTenant))
         = [PatchItemCategory 4; Dispatch onEdited])
  /\ (isResolved (deleteItemCategory 3 demoUser demoTenant) = true
      /\ effects (stateOf (deleteItemCategory 3 demoUser demoTenant))
         = [PatchItemsCategoryNull [3]; DeleteItemCategories [3]; Dispatch onDeleted])
  /\ (isResolved (deleteItemCategories [3; 4] demoUser demoTenant) = true
      /\ effects (stateOf (deleteItemCategories [3; 4] demoUser demoTenant))
         = [PatchItemsCategoryNull [3; 4]; DeleteItemCategories [3; 4];
            Dispatch onBulkDeleted])
  /\ effects (stateOf (deleteItemCategories [3; 8] demoUser demoTenant)) = [].
Proof.
  destruct (one_event_after_the_writes demoTenant demoUser)
    as (Hnew & Hedit & Hdel & Hbulk).
  split; [|split; [|split; [|split]]].
  - destruct (Hnew (mkOTD "Tools" (JsNum 10) JsNull JsNull)) as [Htrace Hok].
    split; [|exact Htrace].
    apply Hok; [|reflexivity].
    apply (name_free_by_query demoTenant "Tools" JsUndefined). reflexivity.
  - destruct (Hedit 4 (mkOTD "Tools" JsNull JsNull JsNull)) as [Htrace Hok].
    split; [|exact Htrace].
    apply Hok; [by eexists | | reflexivity].
    apply (name_free_by_query demoTenant "Tools" (JsNum 4)). reflexivity.
  - destruct (Hdel 3) as [Htrace Hok].
    split; [|exact Htrace]. apply Hok. by eexists.
  - destruct (Hbulk [3; 4]) as [Htrace Hok].
    split; [|exact Htrace]. apply Hok.
    intros i Hi. apply list_elem_of_In in Hi. simpl in Hi.
    destruct Hi as [<- | [<- | []]]; by eexists.
  - exact (proj1 (Hbulk [3; 8])).
Defined.

(** Each of the four calls can succeed: the traces of C7 on the demo
    tenant. *)
Example events_on_demoTenant :
  effects (stateOf (newItemCategory (mkOTD "Tools" (JsNum 10) JsNull JsNull) demoUser
                      demoTenant)) = [InsertItemCategory 5; Dispatch onCreated]
  /\ effects (stateOf (editItemCategory 4 (mkOTD "Tools" JsNull JsNull JsNull) demoUser
                         demoTenant)) = [PatchItemCategory 4; Dispatch onEdited]
  /\ effects (stateOf (deleteItemCategory 3 demoUser demoTenant))
     = [PatchItemsCategoryNull [3]; DeleteItemCategories [3]; Dispatch onDeleted]
  /\ effects (stateOf (deleteItemCategories [3; 4] demoUser demoTenant))
     = [PatchItemsCategoryNull [3; 4]; DeleteItemCategories [3; 4];
        Dispatch onBulkDeleted]
  /\ effects (stateOf (deleteItemCategories [3; 8] demoUser demoTenant)) = [].
Proof. repeat split; vm_compute; reflexivity. Qed.

(** ** The owner of an edited category *)

(** C10. A successful [editItemCategory] stores, as [userId] of the edited
    category, the id of the user who made the edit, whoever owned the row
    before: [transformOTDToObject] puts [authorizedUser.id] into the patch. *)
Theorem edit_overwrites_userId :
  forall st id otd user r st',
    editItemCategory id otd user st = Resolved r st' ->
    exists row,
      r = Some row
      /\ itemCategories st' !! id = Some row
      /\ row_userId row = userIdOf user.
Proof.
  intros st id otd user r st'. rewrite editItemCategory_run.
  destruct (_ !! _) as [old|]; [|done].
  destruct (rejection _); [done|]. destruct (rejection _); [done|].
  intros [= <- <-]. eexists. split; [done|]. split; [|done].
  simpl. apply lookup_insert_eq.
Qed.

Lemma edit_overwrites_userId_witness :
  row_userId <$> itemCategories demoTenant !! 3 = Some 1
  /\ exists row,
       editItemCategory 3 (mkOTD "Hardware" JsUndefined JsNull (JsNum 12)) demoUser
         demoTenant
       = Resolved (Some row)
           (edited 3 (mkOTD "Hardware" JsUndefined JsNull (JsNum 12)) demoUser
              (mkCategory "Hardware" None None None 1) demoTenant)
       /\ row_userId row = 7.
Proof.
  split; [reflexivity|].
  destruct (edit_overwrites_userId demoTenant 3
              (mkOTD "Hardware" JsUndefined JsNull (JsNum 12)) demoUser
              (Some (mkCategory "Hardware" None None (Some 12) 7))
              (edited 3 (mkOTD "Hardware" JsUndefined JsNull (JsNum 12)) demoUser
                 (mkCategory "Hardware" None None None 1) demoTenant))
    as (row & Hr & _ & Hu); [reflexivity|].
  exists row. split; [|exact Hu].
  rewrite <- Hr. reflexivity.
Defined.

(** ** Unlinking items and deleting *)

Lemma unlinkItem_columns ids it : itemColumns (unlinkItem ids it) = itemColumns it.
Proof. unfold unlinkItem. destruct (category_id it); [by case_bool_decide | done]. Qed.

Lemma unlinkItem_in ids it c :
  category_id it = Some c -> c ∈ ids -> category_id (unlinkItem ids it) = None.
Proof. intros Hc Hin. unfold unlinkItem. rewrite Hc. by rewrite bool_decide_eq_true_2. Qed.

Lemma unlinkItem_out ids it :
  (forall c, category_id it = Some c -> c ∉ ids) -> unlinkItem ids it = it.
Proof.
  intros H. unfold unlinkItem. destruct (category_id it) as [c|]; [|done].
  by rewrite bool_decide_eq_false_2; [|apply H].
Qed.

Lemma unlinkItem_clears ids it c :
  category_id (unlinkItem ids it) = Some c -> c ∉ ids.
Proof.
  unfold unlinkItem. destruct (category_id it) as [c'|] eqn:Hc; [|congruence].
  case_bool_decide; simpl; congruence.
Qed.

(** C8. [unassociateItemsWithCategories], on one id or on a list, writes the
    [category_id] column of items and nothing else: an item whose
    [category_id] is not among the ids is unchanged, every item keeps its
    other columns, no item row is added or removed, and the category and
    account tables are as they were. *)
Theorem unassociate_writes_only_category_id :
  forall (arg : Z + list Z) (st : Tenant),
    let ids := match arg with inl i => [i] | inr l => l end in
    exists st',
      unassociateItemsWithCategories arg st = Resolved tt st'
      /\ dom (items st') = dom (items st)
      /\ (forall k it,
            items st !! k = Some it ->
            exists it',
              items st' !! k = Some it'
              /\ itemColumns it' = itemColumns it
              /\ ((forall c, category_id it = Some c -> c ∉ ids) -> it' = it))
      /\ itemCategories st' = itemCategories st
      /\ accounts st' = accounts st.
Proof.
  intros arg st ids. exists (unlinked ids st).
  split; [by destruct arg|]. split; [apply dom_fmap_L|]. split; [|done].
  intros k it Hk. exists (unlinkItem ids it). simpl.
  rewrite lookup_fmap, Hk. split; [done|].
  split; [apply unlinkItem_columns | apply unlinkItem_out].
Qed.

Lemma unassociate_writes_only_category_id_witness :
  exists st',
    unassociateItemsWithCategories (inr [3; 8]) demoTenant = Resolved tt st'
    /\ items st' !! 1 = Some (mkItem [("name", "Hammer")] None)
    /\ items st' !! 2 = Some (mkItem [("name", "Licence")] (Some 4))
    /\ items st' !! 6 = Some (mkItem [("name", "Misc")] None)
    /\ dom (items st') = dom (items demoTenant).
Proof.
  destruct (unassociate_writes_only_category_id (inr [3; 8]) demoTenant)
    as (st' & Hrun & Hdom & _).
  exists st'. split; [exact Hrun|].
  split; [|split; [|split; [|exact Hdom]]]; injection Hrun as <-; reflexivity.
Defined.

(** C2. [deleteItemCategory] of a stored category first sets to [null] the
    [category_id] of every item that referred to it, while the category row
    is still there; then it removes the category row.  No item row is
    deleted, and no item refers to the category afterwards. *)
Theorem delete_unlinks_items_then_removes_category :
  forall st id user c,
    itemCategories st !! id = Some c ->
    exists st1 st2,
      unassociateItemsWithCategories (inl id) st = Resolved tt st1
      /\ itemCategories st1 !! id = Some c
      /\ (forall k it,
            items st !! k = Some it -> category_id it = Some id ->
            exists it', items st1 !! k = Some it' /\ category_id it' = None)
      /\ deleteItemCategory id user st
         = (ItemCategory_deleteById id;; dispatch onDeleted) st1
      /\ deleteItemCategory id user st = Resolved tt st2
      /\ itemCategories st2 = delete id (itemCategories st)
      /\ itemCategories st2 !! id = None
      /\ items st2 = items st1
      /\ dom (items st2) = dom (items st)
      /\ (forall k it, items st2 !! k = Some it -> category_id it <> Some id)
      /\ effects st2
         = effects st ++ [PatchItemsCategoryNull [id]; DeleteItemCategories [id];
                          Dispatch onDeleted].
Proof.
  intros st id user c Hc.
  exists (unlinked [id] st).
  eexists. split; [done|]. split; [done|]. split.
  { intros k it Hk Hcat. exists (unlinkItem [id] it). simpl.
    rewrite lookup_fmap, Hk. split; [done|].
    apply (unlinkItem_in _ _ id Hcat), list_elem_of_here. }
  rewrite deleteItemCategory_run, Hc. split; [done|]. split; [reflexivity|].
  simpl. split; [done|]. split; [apply lookup_delete_eq|]. split; [done|].
  split; [apply dom_fmap_L|]. split; [|by rewrite <- !app_assoc].
  intros k it Hk Hcat. apply lookup_fmap_Some in Hk as (it0 & <- & _).
  apply unlinkItem_clears in Hcat. apply Hcat, list_elem_of_here.
Qed.

Lemma delete_unlinks_items_then_removes_category_witness :
  exists st2,
    deleteItemCategory 3 demoUser demoTenant = Resolved tt st2
    /\ itemCategories st2 !! 3 = None
    /\ category_id <$> items st2 !! 1 = Some None
    /\ category_id <$> items st2 !! 5 = Some None
    /\ category_id <$> items st2 !! 2 = Some (Some 4)
    /\ dom (items st2) = dom (items demoTenant).
Proof.
  destruct (delete_unlinks_items_then_removes_category demoTenant 3 demoUser
              (mkCategory "Hardware" None None None 1))
    as (st1 & st2 & _ & _ & _ & _ & Hrun & _ & Hgone & _ & Hdom & _);
    [reflexivity|].
  exists st2. split; [exact Hrun|]. split; [exact Hgone|].
  split; [|split; [|split; [|exact Hdom]]]; injection Hrun as <-; reflexivity.
Defined.

(** ** Profit and loss totals *)

(** C5. In a statement, gross profit is the income total less the cost of
    sales total, operating profit is gross profit less the expenses total,
    and net income is operating profit less the other expenses total; with
    income 1000, cost of sales 400, expenses 300 and no other expenses they
    are 600, 300 and 300. *)
Theorem statement_totals :
  forall formatNumber currency inc cos exp oth,
    let s := ProfitLossSheet.profitLossStatement formatNumber currency inc cos exp oth in
    let sectionAmount sec := ProfitLossSheet.amount (ProfitLossSheet.section_total sec) in
    let derived sec := ProfitLossSheet.amount (ProfitLossSheet.total sec) in
    sectionAmount (ProfitLossSheet.income s) = ProfitLossSheet.sumAccounts inc
    /\ sectionAmount (ProfitLossSheet.costOfSales s) = ProfitLossSheet.sumAccounts cos
    /\ sectionAmount (ProfitLossSheet.expenses s) = ProfitLossSheet.sumAccounts exp
    /\ sectionAmount (ProfitLossSheet.otherExpenses s) = ProfitLossSheet.sumAccounts oth
    /\ derived (ProfitLossSheet.grossProfit s)
       = sectionAmount (ProfitLossSheet.income s)
         - sectionAmount (ProfitLossSheet.costOfSales s)
    /\ derived (ProfitLossSheet.operatingProfit s)
       = derived (ProfitLossSheet.grossProfit s)
         - sectionAmount (ProfitLossSheet.expenses s)
    /\ derived (ProfitLossSheet.netIncome s)
       = derived (ProfitLossSheet.operatingProfit s)
         - sectionAmount (ProfitLossSheet.otherExpenses s)
    /\ (ProfitLossSheet.sumAccounts inc = 1000 ->
        ProfitLossSheet.sumAccounts cos = 400 ->
        ProfitLossSheet.sumAccounts exp = 300 ->
        ProfitLossSheet.sumAccounts oth = 0 ->
        derived (ProfitLossSheet.grossProfit s) = 600
        /\ derived (ProfitLossSheet.operatingProfit s) = 300
        /\ derived (ProfitLossSheet.netIncome s) = 300).
Proof.
  intros formatNumber currency inc cos exp oth s sectionAmount derived.
  repeat (split; [reflexivity|]).
  intros Hi Hc He Ho. subst s sectionAmount derived. simpl. lia.
Qed.

Lemma statement_totals_witness :
  let s :=
    ProfitLossSheet.profitLossStatement (fun _ => "") "USD"
      [ProfitLossSheet.sheetAccount 1 "Sales" 700;
       ProfitLossSheet.sheetAccount 2 "Services" 300]
      [ProfitLossSheet.sheetAccount 3 "Cost of goods sold" 400]
      [ProfitLossSheet.sheetAccount 4 "Rent" 100;
       ProfitLossSheet.sheetAccount 5 "Salaries" 200]
      [] in
  ProfitLossSheet.amount (ProfitLossSheet.total (ProfitLossSheet.grossProfit s)) = 600
  /\ ProfitLossSheet.amount (ProfitLossSheet.total (ProfitLossSheet.operatingProfit s)) = 300
  /\ ProfitLossSheet.amount (ProfitLossSheet.total (ProfitLossSheet.netIncome s)) = 300.
Proof.
  apply (statement_totals (fun _ => "") "USD"
           [ProfitLossSheet.sheetAccount 1 "Sales" 700;
            ProfitLossSheet.sheetAccount 2 "Services" 300]
           [ProfitLossSheet.sheetAccount 3 "Cost of goods sold" 400]
           [ProfitLossSheet.sheetAccount 4 "Rent" 100;
            ProfitLossSheet.sheetAccount 5 "Salaries" 200]
           []); reflexivity.
Defined.

(** * Further properties of the service *)

(** ** What a call that resolves has done *)

Lemma newItemCategory_Resolved otd user st r st' :
  newItemCategory otd user st = Resolved r st' ->
  r = (nextId (itemCategories st), insertedRow (transformOTDToObject otd user))
  /\ st' = created otd user st
  /\ ~ nameTaken st (name otd) None
  /\ accountChecks st otd = None.
Proof.
  rewrite newItemCategory_run.
  destruct (rejection_validateCategoryNameUniquiness (name otd) JsUndefined st)
    as [[_ ->] | [Hfree ->]]; [done|].
  rewrite rejection_accountValidations.
  destruct (accountChecks st otd); [done|]. by intros [= <- <-].
Qed.

Lemma editItemCategory_Resolved id otd user st r st' :
  editItemCategory id otd user st = Resolved r st' ->
  exists old,
    itemCategories st !! id = Some old
    /\ r = Some (patchedRow (transformOTDToObject otd user) old)
    /\ st' = edited id otd user old st
    /\ ~ nameTaken st (name otd) (truthy (JsNum id))
    /\ accountChecks st otd = None.
Proof.
  rewrite editItemCategory_run.
  destruct (itemCategories st !! id) as [old|]; [|done].
  destruct (rejection_validateCategoryNameUniquiness (name otd) (JsNum id) st)
    as [[_ ->] | [Hfree ->]]; [done|].
  rewrite rejection_accountValidations.
  destruct (accountChecks st otd); [done|]. intros [= <- <-]. by exists old.
Qed.

Lemma deleteItemCategory_cases id user st :
  (itemCategories st !! id = None
   /\ deleteItemCategory id user st = Rejected (mkServiceError CATEGORY_NOT_FOUND) st)
  \/ (is_Some (itemCategories st !! id)
      /\ deleteItemCategory id user st = Resolved tt (deleted id st)).
Proof.
  rewrite deleteItemCategory_run.
  destruct (itemCategories st !! id) eqn:Hl; [right | left]; by split.
Qed.

Lemma deleteItemCategories_cases ids user st :
  ((exists i, i ∈ ids /\ itemCategories st !! i = None)
   /\ deleteItemCategories ids user st
      = Rejected (mkServiceError ITEM_CATEGORIES_NOT_FOUND) st)
  \/ ((forall i, i ∈ ids -> is_Some (itemCategories st !! i))
      /\ deleteItemCategories ids user st = Resolved tt (bulkDeleted ids st)).
Proof.
  rewrite deleteItemCategories_run.
  destruct (rejection_getItemCategoriesOrThrowError ids st) as [[H ->] | [H ->]];
    [left | right]; by split.
Qed.

Lemma nextId_positive {R} (t : gmap Z R) : 0 < nextId t.
Proof.
  unfold nextId. generalize ((map_to_list t).*1). intros l.
  assert (0 <= foldr Z.max 0 l) by (induction l; simpl; lia). lia.
Qed.

Lemma getItemCategory_run id user st :
  getItemCategory id user st =
  match itemCategories st !! id with
  | Some c => Resolved c st
  | None => Rejected (mkServiceError CATEGORY_NOT_FOUND) st
  end.
Proof.
  unfold getItemCategory, getItemCategoryOrThrowError, mbind, Async_bind, await, read,
    findById.
  by destruct (itemCategories st !! id).
Qed.

Lemma deleteWhereIdIn_lookup {R} (ids : list Z) (t : gmap Z R) (k : Z) :
  deleteWhereIdIn ids t !! k = if decide (k ∈ ids) then None else t !! k.
Proof.
  unfold deleteWhereIdIn. destruct (decide (k ∈ ids)) as [Hin | Hout].
  - apply map_lookup_filter_None. right. intros x _ Hx. by apply Hx.
  - destruct (t !! k) as [x|] eqn:Hk.
    + by apply map_lookup_filter_Some.
    + apply map_lookup_filter_None. by left.
Qed.

(** ** Round trips *)

(** A category that [newItemCategory] has created can be read back: its id
    is positive and was free before, [getItemCategory] of that id resolves
    with the returned row, the row bears the submitted name and the id of the
    creating user, and the rows stored before, the items and the accounts are
    as they were. *)
Theorem created_category_can_be_read_back :
  forall st otd user id row st',
    newItemCategory otd user st = Resolved (id, row) st' ->
    itemCategories st !! id = None
    /\ 0 < id
    /\ getItemCategory id user st' = Resolved row st'
    /\ row_name row = name otd
    /\ row_userId row = userIdOf user
    /\ (forall k, k <> id -> itemCategories st' !! k = itemCategories st !! k)
    /\ items st' = items st
    /\ accounts st' = accounts st.
Proof.
  intros st otd user id row st' Hrun.
  apply newItemCategory_Resolved in Hrun as ([= -> ->] & -> & _ & _).
  split; [apply nextId_fresh|]. split; [apply nextId_positive|].
  split; [rewrite getItemCategory_run; simpl; by rewrite lookup_insert_eq|].
  split; [done|]. split; [done|]. split; [|done].
  intros k Hk. simpl. by rewrite lookup_insert_ne.
Qed.

Lemma created_category_can_be_read_back_witness :
  getItemCategory 5 demoUser
    (created (mkOTD "Tools" (JsNum 10) JsNull JsUndefined) demoUser demoTenant)
  = Resolved (mkCategory "Tools" (Some 10) None None 7)
      (created (mkOTD "Tools" (JsNum 10) JsNull JsUndefined) demoUser demoTenant)
  /\ itemCategories demoTenant !! 5 = None.
Proof.
  destruct (created_category_can_be_read_back demoTenant
              (mkOTD "Tools" (JsNum 10) JsNull JsUndefined) demoUser 5
              (mkCategory "Tools" (Some 10) None None 7)
              (created (mkOTD "Tools" (JsNum 10) JsNull JsUndefined) demoUser demoTenant))
    as (Hfree & _ & Hget & _); [reflexivity|].
  split; [exact Hget | exact Hfree].
Defined.

(** A category that [editItemCategory] has edited can be read back:
    [getItemCategory] resolves with the returned row, which bears the
    submitted name; the edit adds and removes no category, leaves every other
    category as it was, and touches neither the items (so every item keeps
    its category) nor the accounts. *)
Theorem edited_category_can_be_read_back :
  forall st id otd user r st',
    editItemCategory id otd user st = Resolved r st' ->
    exists row,
      r = Some row
      /\ getItemCategory id user st' = Resolved row st'
      /\ row_name row = name otd
      /\ dom (itemCategories st') = dom (itemCategories st)
      /\ (forall k, k <> id -> itemCategories st' !! k = itemCategories st !! k)
      /\ items st' = items st
      /\ accounts st' = accounts st.
Proof.
  intros st id otd user r st' Hrun.
  apply editItemCategory_Resolved in Hrun as (old & Hold & -> & -> & _ & _).
  eexists. split; [done|].
  split; [rewrite getItemCategory_run; simpl; by rewrite lookup_insert_eq|].
  split; [done|]. split.
  { simpl. apply dom_insert_lookup_L. by eexists. }
  split; [|done]. intros k Hk. simpl. by rewrite lookup_insert_ne.
Qed.

Lemma edited_category_can_be_read_back_witness :
  exists row,
    getItemCategory 4 demoUser
      (edited 4 (mkOTD "Apps" JsUndefined (JsNum 11) JsNull) demoUser
         (mkCategory "Software" (Some 10) None None 2) demoTenant)
    = Resolved row
        (edited 4 (mkOTD "Apps" JsUndefined (JsNum 11) JsNull) demoUser
           (mkCategory "Software" (Some 10) None None 2) demoTenant)
    /\ row_name row = "Apps".
Proof.
  destruct (edited_category_can_be_read_back demoTenant 4
              (mkOTD "Apps" JsUndefined (JsNum 11) JsNull) demoUser
              (Some (mkCategory "Apps" (Some 10) (Some 11) None 7))
              (edited 4 (mkOTD "Apps" JsUndefined (JsNum 11) JsNull) demoUser
                 (mkCategory "Software" (Some 10) None None 2) demoTenant))
    as (row & _ & Hget & Hname & _); [reflexivity|].
  exists row. split; [exact Hget | exact Hname].
Defined.

(** Once [deleteItemCategory] has removed a category, the id is gone for
    every method that looks it up: [getItemCategory], [editItemCategory] and
    a second [deleteItemCategory] are all rejected with [CATEGORY_NOT_FOUND]
    and leave the store alone; the other categories and the accounts are as
    they were before the delete. *)
Theorem deleted_category_is_gone :
  forall st id user st',
    deleteItemCategory id user st = Resolved tt st' ->
    getItemCategory id user st' = Rejected (mkServiceError CATEGORY_NOT_FOUND) st'
    /\ (forall otd u,
          editItemCategory id otd u st' = Rejected (mkServiceError CATEGORY_NOT_FOUND) st')
    /\ (forall u,
          deleteItemCategory id u st' = Rejected (mkServiceError CATEGORY_NOT_FOUND) st')
    /\ (forall k, k <> id -> itemCategories st' !! k = itemCategories st !! k)
    /\ accounts st' = accounts st.
Proof.
  intros st id user st' Hrun.
  destruct (deleteItemCategory_cases id user st) as [[_ Hr] | [_ Hr]];
    rewrite Hr in Hrun; [done|]. injection Hrun as <-.
  assert (itemCategories (deleted id st) !! id = None) as Hgone
    by (simpl; apply lookup_delete_eq).
  split; [by rewrite getItemCategory_run, Hgone|].
  split; [intros otd u; by rewrite editItemCategory_run, Hgone|].
  split; [intros u; by rewrite deleteItemCategory_run, Hgone|].
  split; [|done]. intros k Hk. simpl. by rewrite lookup_delete_ne.
Qed.

Lemma deleted_category_is_gone_witness :
  getItemCategory 3 demoUser (deleted 3 demoTenant)
  = Rejected (mkServiceError CATEGORY_NOT_FOUND) (deleted 3 demoTenant)
  /\ itemCategories (deleted 3 demoTenant) !! 4
     = Some (mkCategory "Software" (Some 10) None None 2).
Proof.
  destruct (deleted_category_is_gone demoTenant 3 demoUser (deleted 3 demoTenant))
    as (Hget & _ & _ & Hother & _); [reflexivity|].
  split; [exact Hget|]. rewrite (Hother 4); [reflexivity | lia].
Defined.

(** ** Bulk delete *)

Lemma unlinkItem_nil it : unlinkItem [] it = it.
Proof. apply unlinkItem_out. intros c _. apply not_elem_of_nil. Qed.

Lemma deleteWhereIdIn_nil {R} (t : gmap Z R) : deleteWhereIdIn [] t = t.
Proof.
  apply map_eq. intros k. rewrite deleteWhereIdIn_lookup.
  destruct (decide (k ∈ [])) as [Hin|]; [|done]. by apply not_elem_of_nil in Hin.
Qed.

Lemma deleteWhereIdIn_singleton {R} (id : Z) (t : gmap Z R) :
  deleteWhereIdIn [id] t = delete id t.
Proof.
  apply map_eq. intros k. rewrite deleteWhereIdIn_lookup.
  destruct (decide (k ∈ [id])) as [Hin | Hout].
  - apply list_elem_of_singleton in Hin as ->. by rewrite lookup_delete_eq.
  - rewrite lookup_delete_ne; [done|]. intros ->. apply Hout, list_elem_of_here.
Qed.

(** [deleteItemCategories] resolves exactly when every id of the list is
    stored (an id may occur more than once).  It then removes the listed
    categories and no other, leaves no item that refers to a listed id, and
    does not touch the accounts. *)
Theorem bulk_delete_resolves_iff_all_stored :
  forall st ids user,
    (isResolved (deleteItemCategories ids user st) = true
     <-> forall i, i ∈ ids -> is_Some (itemCategories st !! i))
    /\ (forall st',
          deleteItemCategories ids user st = Resolved tt st' ->
          (forall k, itemCategories st' !! k
                     = if decide (k ∈ ids) then None else itemCategories st !! k)
          /\ (forall k it c,
                items st' !! k = Some it -> category_id it = Some c -> c ∉ ids)
          /\ dom (items st') = dom (items st)
          /\ accounts st' = accounts st).
Proof.
  intros st ids user.
  destruct (deleteItemCategories_cases ids user st) as [[(i & Hi & Hn) ->] | [Hall ->]].
  - split; [|done]. split; [done|]. intros Hall. apply Hall in Hi as [c Hc]. congruence.
  - split; [done|]. intros st' [= <-].
    split; [intros k; simpl; apply deleteWhereIdIn_lookup|].
    split; [|split; [apply dom_fmap_L | done]].
    intros k it c Hk Hc. simpl in Hk.
    apply lookup_fmap_Some in Hk as (it0 & <- & _). by apply unlinkItem_clears in Hc.
Qed.

Lemma bulk_delete_resolves_iff_all_stored_witness :
  itemCategories (bulkDeleted [3; 4; 3] demoTenant) !! 3 = None
  /\ itemCategories (bulkDeleted [3; 4; 3] demoTenant) !! 4 = None
  /\ accounts (bulkDeleted [3; 4; 3] demoTenant) = accounts demoTenant.
Proof.
  destruct (proj2 (bulk_delete_resolves_iff_all_stored demoTenant [3; 4; 3] demoUser)
              (bulkDeleted [3; 4; 3] demoTenant))
    as (Hcats & _ & _ & Hacc); [reflexivity|].
  split; [by rewrite Hcats | split; [by rewrite Hcats | exact Hacc]].
Defined.

(** A bulk delete of the empty list is not rejected: it resolves, leaves the
    three tables as they are, and still issues its two statements and
    dispatches [onBulkDeleted]. *)
Theorem bulk_delete_of_nothing :
  forall st user,
    exists st',
      deleteItemCategories [] user st = Resolved tt st'
      /\ itemCategories st' = itemCategories st
      /\ items st' = items st
      /\ accounts st' = accounts st
      /\ effects st'
         = effects st ++ [PatchItemsCategoryNull []; DeleteItemCategories [];
                          Dispatch onBulkDeleted].
Proof.
  intros st user. exists (bulkDeleted [] st).
  destruct (deleteItemCategories_cases [] user st) as [[(i & Hi & _) _] | [_ ->]].
  { by apply not_elem_of_nil in Hi. }
  split; [done|]. split; [simpl; apply deleteWhereIdIn_nil|].
  split; [|split; [done | simpl; by rewrite <- !app_assoc]].
  simpl. apply map_eq. intros k. rewrite lookup_fmap.
  destruct (items st !! k); simpl; [by rewrite unlinkItem_nil | done].
Qed.

(** On a stored id, a bulk delete of the one-element list and a single
    delete leave the same three tables; they differ in the event they
    dispatch.  On an id that is not stored both are rejected, the bulk delete
    with [ITEM_CATEGORIES_NOT_FOUND] and the single one with
    [CATEGORY_NOT_FOUND]. *)
Theorem bulk_delete_of_one_is_delete :
  forall st id user,
    match itemCategories st !! id with
    | Some _ =>
        exists st1 st2,
          deleteItemCategory id user st = Resolved tt st1
          /\ deleteItemCategories [id] user st = Resolved tt st2
          /\ itemCategories st1 = itemCategories st2
          /\ items st1 = items st2
          /\ accounts st1 = accounts st2
    | None =>
        deleteItemCategory id user st = Rejected (mkServiceError CATEGORY_NOT_FOUND) st
        /\ deleteItemCategories [id] user st
           = Rejected (mkServiceError ITEM_CATEGORIES_NOT_FOUND) st
    end.
Proof.
  intros st id user. destruct (itemCategories st !! id) as [c|] eqn:Hc.
  - exists (deleted id st), (bulkDeleted [id] st).
    destruct (deleteItemCategory_cases id user st) as [[Hn _] | [_ ->]]; [congruence|].
    destruct (deleteItemCategories_cases [id] user st)
      as [[(i & Hi & Hn) _] | [_ ->]].
    { apply list_elem_of_singleton in Hi as ->. congruence. }
    split; [done|]. split; [done|]. split; [|done].
    simpl. by rewrite deleteWhereIdIn_singleton.
  - split.
    + destruct (deleteItemCategory_cases id user st) as [[_ ->] | [[? ?] _]];
        [done | congruence].
    + apply (deleteItemCategories_missing st [id] user id); [apply list_elem_of_here | done].
Qed.

(** ** Invariants of the store *)

Lemma uniqueNamesb_true st : uniqueNamesb st = true -> uniqueNames st.
Proof.
  intros H%bool_decide_eq_true i j ci cj Hi Hj.
  exact (H i ci Hi j cj Hj).
Qed.

Lemma positiveKeysb_true st : positiveKeysb st = true -> positiveKeys st.
Proof. intros H%bool_decide_eq_true i c Hi. exact (H i c Hi). Qed.

Lemma noDanglingItemsb_true st : noDanglingItemsb st = true -> noDanglingItems st.
Proof.
  intros H%bool_decide_eq_true k it c Hk Hc.
  specialize (H k it Hk). simpl in H. rewrite Hc in H.
  by apply bool_decide_eq_true in H.
Qed.

Lemma truthy_positive id : 0 < id -> truthy (JsNum id) = Some id.
Proof. intros H. simpl. destruct (Z.eqb_spec id 0); [lia | done]. Qed.

(** What the store is after a call, whether it resolved or not. *)
Lemma stateOf_newItemCategory otd user st :
  stateOf (newItemCategory otd user st) = st
  \/ (stateOf (newItemCategory otd user st) = created otd user st
      /\ ~ nameTaken st (name otd) None).
Proof.
  destruct (newItemCategory otd user st) as [r st' | e st'] eqn:Hrun; simpl.
  - apply newItemCategory_Resolved in Hrun as (_ & -> & Hfree & _). by right.
  - left. rewrite newItemCategory_run in Hrun.
    destruct (rejection _); [congruence|]. destruct (rejection _); congruence.
Qed.

Lemma stateOf_editItemCategory id otd user st :
  stateOf (editItemCategory id otd user st) = st
  \/ (exists old,
        itemCategories st !! id = Some old
        /\ stateOf (editItemCategory id otd user st) = edited id otd user old st
        /\ ~ nameTaken st (name otd) (truthy (JsNum id))).
Proof.
  destruct (editItemCategory id otd user st) as [r st' | e st'] eqn:Hrun; simpl.
  - apply editItemCategory_Resolved in Hrun as (old & Hold & _ & -> & Hfree & _).
    right. by exists old.
  - left. rewrite editItemCategory_run in Hrun.
    destruct (_ !! _); [|congruence].
    destruct (rejection _); [congruence|]. destruct (rejection _); congruence.
Qed.

Lemma stateOf_deleteItemCategory id user st :
  stateOf (deleteItemCategory id user st) = st
  \/ stateOf (deleteItemCategory id user st) = deleted id st.
Proof.
  destruct (deleteItemCategory_cases id user st) as [[_ ->] | [_ ->]]; auto.
Qed.

Lemma stateOf_deleteItemCategories ids user st :
  stateOf (deleteItemCategories ids user st) = st
  \/ stateOf (deleteItemCategories ids user st) = bulkDeleted ids st.
Proof.
  destruct (deleteItemCategories_cases ids user st) as [[_ ->] | [_ ->]]; auto.
Qed.

Lemma uniqueNames_created otd user st :
  uniqueNames st -> ~ nameTaken st (name otd) None ->
  uniqueNames (created otd user st).
Proof.
  intros Hu Hfree i j ci cj Hi Hj Hn. simpl in Hi, Hj.
  apply lookup_insert_Some in Hi as [[<- <-] | [Hi' Hi]];
    apply lookup_insert_Some in Hj as [[<- <-] | [Hj' Hj]]; try done.
  - exfalso. apply Hfree. exists j, cj. by repeat split.
  - exfalso. apply Hfree. exists i, ci. by repeat split.
  - by apply (Hu i j ci cj).
Qed.

Lemma uniqueNames_edited id otd user old st :
  uniqueNames st -> ~ nameTaken st (name otd) (Some id) ->
  uniqueNames (edited id otd user old st).
Proof.
  intros Hu Hfree i j ci cj Hi Hj Hn. simpl in Hi, Hj.
  apply lookup_insert_Some in Hi as [[<- <-] | [Hi' Hi]];
    apply lookup_insert_Some in Hj as [[<- <-] | [Hj' Hj]]; try done.
  - exfalso. apply Hfree. exists j, cj. split; [done|]. split; [done | congruence].
  - exfalso. apply Hfree. exists i, ci. split; [done|]. split; [done | congruence].
  - by apply (Hu i j ci cj).
Qed.

Lemma uniqueNames_fewer st st' :
  (forall k c, itemCategories st' !! k = Some c -> itemCategories st !! k = Some c) ->
  uniqueNames st -> uniqueNames st'.
Proof. intros Hsub Hu i j ci cj Hi Hj. apply Hu; by apply Hsub. Qed.

Lemma positiveKeys_fewer st st' :
  (forall k c, itemCategories st' !! k = Some c -> itemCategories st !! k = Some c) ->
  positiveKeys st -> positiveKeys st'.
Proof. intros Hsub Hp i c Hi. apply (Hp i c). by apply Hsub. Qed.

Lemma deleted_fewer id st k c :
  itemCategories (deleted id st) !! k = Some c -> itemCategories st !! k = Some c.
Proof. simpl. intros H. by apply lookup_delete_Some in H as [_ ?]. Qed.

Lemma bulkDeleted_fewer ids st k c :
  itemCategories (bulkDeleted ids st) !! k = Some c -> itemCategories st !! k = Some c.
Proof.
  simpl. rewrite deleteWhereIdIn_lookup. by destruct (decide (k ∈ ids)).
Qed.

(** The service keeps category names unique: on a store whose categories
    have positive keys and pairwise different names, whatever
    [newItemCategory], [editItemCategory], [deleteItemCategory] or
    [deleteItemCategories] does, resolved or rejected, the store it leaves
    has again positive keys and pairwise different names. *)
Theorem names_stay_unique :
  forall st user,
    uniqueNames st -> positiveKeys st ->
    (forall otd,
       uniqueNames (stateOf (newItemCategory otd user st))
       /\ positiveKeys (stateOf (newItemCategory otd user st)))
    /\ (forall id otd,
          uniqueNames (stateOf (editItemCategory id otd user st))
          /\ positiveKeys (stateOf (editItemCategory id otd user st)))
    /\ (forall id,
          uniqueNames (stateOf (deleteItemCategory id user st))
          /\ positiveKeys (stateOf (deleteItemCategory id user st)))
    /\ (forall ids,
          uniqueNames (stateOf (deleteItemCategories ids user st))
          /\ positiveKeys (stateOf (deleteItemCategories ids user st))).
Proof.
  intros st user Hu Hp. split; [|split; [|split]].
  - intros otd. destruct (stateOf_newItemCategory otd user st) as [-> | [-> Hfree]];
      [done|]. split; [by apply uniqueNames_created|].
    intros i c Hi. simpl in Hi.
    apply lookup_insert_Some in Hi as [[<- _] | [_ Hi]];
      [apply nextId_positive | by apply (Hp i c)].
  - intros id otd.
    destruct (stateOf_editItemCategory id otd user st)
      as [-> | (old & Hold & -> & Hfree)]; [done|].
    rewrite (truthy_positive id (Hp id old Hold)) in Hfree.
    split; [by apply uniqueNames_edited|].
    intros i c Hi. simpl in Hi.
    apply lookup_insert_Some in Hi as [[<- _] | [_ Hi]];
      [by apply (Hp id old) | by apply (Hp i c)].
  - intros id. destruct (stateOf_deleteItemCategory id user st) as [-> | ->]; [done|].
    split; [apply (uniqueNames_fewer st) | apply (positiveKeys_fewer st)];
      try done; apply deleted_fewer.
  - intros ids. destruct (stateOf_deleteItemCategories ids user st) as [-> | ->];
      [done|].
    split; [apply (uniqueNames_fewer st) | apply (positiveKeys_fewer st)];
      try done; apply bulkDeleted_fewer.
Qed.

Lemma names_stay_unique_witness :
  uniqueNames demoTenant /\ positiveKeys demoTenant
  /\ uniqueNames
       (stateOf (newItemCategory (mkOTD "Tools" JsNull JsNull JsNull) demoUser demoTenant))
  /\ uniqueNames
       (stateOf (editItemCategory 3 (mkOTD "Tools" JsNull JsNull JsNull) demoUser
                   demoTenant)).
Proof.
  assert (uniqueNames demoTenant) as Hu by (apply uniqueNamesb_true; reflexivity).
  assert (positiveKeys demoTenant) as Hp by (apply positiveKeysb_true; reflexivity).
  destruct (names_stay_unique demoTenant demoUser Hu Hp) as (Hnew & Hedit & _).
  split; [exact Hu|]. split; [exact Hp|].
  split; [apply Hnew | apply Hedit].
Defined.

Lemma unlinkItem_keeps ids it c :
  category_id (unlinkItem ids it) = Some c -> category_id it = Some c /\ c ∉ ids.
Proof.
  unfold unlinkItem. destruct (category_id it) as [c'|] eqn:Hc; [|congruence].
  case_bool_decide; simpl; [done|]. rewrite Hc. by intros [= <-].
Qed.

Lemma noDanglingItems_more st st' :
  items st' = items st ->
  (forall c, is_Some (itemCategories st !! c) -> is_Some (itemCategories st' !! c)) ->
  noDanglingItems st -> noDanglingItems st'.
Proof.
  intros Hit Hsup Hnd k it c Hk Hc. rewrite Hit in Hk. apply Hsup. by apply (Hnd k it c).
Qed.

Lemma noDanglingItems_unlinked ids st t :
  (forall c, c ∉ ids -> is_Some (itemCategories st !! c) -> is_Some (t !! c)) ->
  noDanglingItems st ->
  noDanglingItems (setItemCategories t (unlinked ids st)).
Proof.
  intros Hkept Hnd k it c Hk Hc. simpl in *.
  apply lookup_fmap_Some in Hk as (it0 & <- & Hk).
  apply unlinkItem_keeps in Hc as [Hc Hout].
  apply Hkept; [done|]. by apply (Hnd k it0 c).
Qed.

(** The service keeps the item back-references sound: on a store where every
    item that has a category refers to a stored one, whatever
    [newItemCategory], [editItemCategory], [deleteItemCategory] or
    [deleteItemCategories] does, resolved or rejected, no item is left
    referring to a category that is not stored. *)
Theorem no_item_is_left_dangling :
  forall st user,
    noDanglingItems st ->
    (forall otd, noDanglingItems (stateOf (newItemCategory otd user st)))
    /\ (forall id otd, noDanglingItems (stateOf (editItemCategory id otd user st)))
    /\ (forall id, noDanglingItems (stateOf (deleteItemCategory id user st)))
    /\ (forall ids, noDanglingItems (stateOf (deleteItemCategories ids user st))).
Proof.
  intros st user Hnd. split; [|split; [|split]].
  - intros otd. destruct (stateOf_newItemCategory otd user st) as [-> | [-> _]]; [done|].
    apply (noDanglingItems_more st); [done | | done].
    intros c Hc. simpl. rewrite lookup_insert. by case_decide.
  - intros id otd.
    destruct (stateOf_editItemCategory id otd user st) as [-> | (old & _ & -> & _)];
      [done|].
    apply (noDanglingItems_more st); [done | | done].
    intros c Hc. simpl. rewrite lookup_insert. by case_decide.
  - intros id. destruct (stateOf_deleteItemCategory id user st) as [-> | ->]; [done|].
    intros k it c Hk Hc.
    apply (noDanglingItems_unlinked [id] st (delete id (itemCategories st)))
      with k it; [|done..].
    intros c' Hout Hin. rewrite lookup_delete_ne; [done|].
    intros ->. apply Hout, list_elem_of_here.
  - intros ids. destruct (stateOf_deleteItemCategories ids user st) as [-> | ->];
      [done|].
    intros k it c Hk Hc.
    apply (noDanglingItems_unlinked ids st (deleteWhereIdIn ids (itemCategories st)))
      with k it; [|done..].
    intros c' Hout Hin. rewrite deleteWhereIdIn_lookup. by case_decide.
Qed.

Lemma no_item_is_left_dangling_witness :
  noDanglingItems demoTenant
  /\ noDanglingItems (stateOf (deleteItemCategory 3 demoUser demoTenant))
  /\ noDanglingItems (stateOf (deleteItemCategories [4; 3] demoUser demoTenant)).
Proof.
  assert (noDanglingItems demoTenant) as Hnd
    by (apply noDanglingItemsb_true; reflexivity).
  destruct (no_item_is_left_dangling demoTenant demoUser Hnd) as (_ & _ & Hdel & Hbulk).
  split; [exact Hnd|]. split; [apply Hdel | apply Hbulk].
Defined.

(** ** The errors of each method *)

(** Each method raises the errors of its own checks and no other:
    [newItemCategory] the name conflict or an account error,
    [editItemCategory] these or [CATEGORY_NOT_FOUND], [deleteItemCategory]
    only [CATEGORY_NOT_FOUND] and only on an id that is not stored,
    [deleteItemCategories] only [ITEM_CATEGORIES_NOT_FOUND] and only when an
    id of the list is not stored.  So [CATEGORY_HAVE_ITEMS] is never raised:
    a stored category is deleted whether or not items refer to it. *)
Theorem errors_of_each_method :
  forall st user e,
    (forall otd,
       rejection (newItemCategory otd user st) = Some e ->
       e = CATEGORY_NAME_EXISTS \/ sellError e \/ costError e \/ inventoryError e)
    /\ (forall id otd,
          rejection (editItemCategory id otd user st) = Some e ->
          e = CATEGORY_NOT_FOUND \/ e = CATEGORY_NAME_EXISTS
          \/ sellError e \/ costError e \/ inventoryError e)
    /\ (forall id,
          rejection (deleteItemCategory id user st) = Some e ->
          e = CATEGORY_NOT_FOUND /\ itemCategories st !! id = None)
    /\ (forall ids,
          rejection (deleteItemCategories ids user st) = Some e ->
          e = ITEM_CATEGORIES_NOT_FOUND
          /\ exists i, i ∈ ids /\ itemCategories st !! i = None).
Proof.
  intros st user e. split; [|split; [|split]].
  - intros otd H. apply newItemCategory_rejections in H as [-> | H]; [by left|].
    apply accountChecks_blames in H as [[? _] | [[? _] | [? _]]]; tauto.
  - intros id otd H.
    apply editItemCategory_rejections in H as [-> | [-> | H]]; [tauto | tauto |].
    apply accountChecks_blames in H as [[? _] | [[? _] | [? _]]]; tauto.
  - intros id. destruct (deleteItemCategory_cases id user st) as [[Hn ->] | [_ ->]];
      simpl; [by intros [= <-] | done].
  - intros ids. destruct (deleteItemCategories_cases ids user st) as [[Hn ->] | [_ ->]];
      simpl; [by intros [= <-] | done].
Qed.

Lemma errors_of_each_method_witness :
  rejection (deleteItemCategory 9 demoUser demoTenant) = Some CATEGORY_NOT_FOUND
  /\ itemCategories demoTenant !! 9 = None
  /\ isResolved (deleteItemCategory 3 demoUser demoTenant) = true.
Proof.
  destruct (proj1 (proj2 (proj2 (errors_of_each_method demoTenant demoUser
                                   CATEGORY_NOT_FOUND))) 9)
    as [_ Hnone]; [reflexivity|].
  split; [reflexivity|]. split; [exact Hnone | reflexivity].
Defined.

(** ** Names across calls *)

(** Saving a category under the name it already has, on a store with unique
    names: the edit is never taken for a name conflict -- the guard
    [whereNot('id', notCategoryId)] leaves the category itself out -- except
    for the key [0], on which the guard [if (notCategoryId)] does not fire
    and the category conflicts with itself. *)
Theorem edit_keeping_the_name :
  forall st id otd user c,
    uniqueNames st ->
    itemCategories st !! id = Some c ->
    row_name c = name otd ->
    (rejection (editItemCategory id otd user st) = Some CATEGORY_NAME_EXISTS
     <-> id = 0).
Proof.
  intros st id otd user c Hu Hc Hname. rewrite editItemCategory_run, Hc.
  destruct (rejection_validateCategoryNameUniquiness (name otd) (JsNum id) st)
    as [[Ht ->] | [Hfree ->]]; simpl.
  - split; [intros _ | done].
    destruct Ht as (j & cj & Hj & Hnj & Hx). simpl in Hx.
    destruct (Z.eqb_spec id 0) as [-> | Hid]; [done|].
    exfalso. apply Hx. f_equal. apply (Hu j id cj c); congruence.
  - pose proof (accountChecks_not_name_exists st otd) as Hacc.
    rewrite <- rejection_accountValidations in Hacc.
    split.
    + destruct (rejection (accountValidations otd st)); simpl; [congruence | done].
    + intros ->. exfalso. apply Hfree. exists 0, c. by repeat split.
Qed.

Lemma edit_keeping_the_name_witness :
  rejection (editItemCategory 4 (mkOTD "Software" JsNull JsNull JsNull) demoUser
               demoTenant) <> Some CATEGORY_NAME_EXISTS.
Proof.
  intros H.
  apply (edit_keeping_the_name demoTenant 4 (mkOTD "Software" JsNull JsNull JsNull)
           demoUser (mkCategory "Software" (Some 10) None None 2)) in H;
    [lia | apply uniqueNamesb_true; reflexivity | reflexivity | reflexivity].
Defined.

(** After a successful [newItemCategory], the name is taken: a second create
    under the same name is rejected with [CATEGORY_NAME_EXISTS], and so is an
    edit that would give the name to another stored category (of nonzero
    key); both leave the store as the first create left it. *)
Theorem created_name_is_taken :
  forall st otd user id row st',
    newItemCategory otd user st = Resolved (id, row) st' ->
    forall otd' user',
      name otd' = name otd ->
      newItemCategory otd' user' st' = Rejected (mkServiceError CATEGORY_NAME_EXISTS) st'
      /\ (forall id',
            id' <> 0 -> id' <> id -> is_Some (itemCategories st' !! id') ->
            editItemCategory id' otd' user' st'
            = Rejected (mkServiceError CATEGORY_NAME_EXISTS) st').
Proof.
  intros st otd user id row st' Hrun otd' user' Hname.
  apply newItemCategory_Resolved in Hrun as ([= -> ->] & -> & _ & _).
  set (st' := created otd user st).
  assert (itemCategories st' !! nextId (itemCategories st)
          = Some (insertedRow (transformOTDToObject otd user))) as Hrow
    by (simpl; apply lookup_insert_eq).
  split.
  - rewrite newItemCategory_run.
    destruct (rejection_validateCategoryNameUniquiness (name otd') JsUndefined st')
      as [[_ ->] | [Hfree _]]; [done|].
    exfalso. apply Hfree. eexists _, _. split; [exact Hrow|]. by split.
  - intros id' Hid0 Hne [old Hold]. rewrite editItemCategory_run, Hold.
    destruct (rejection_validateCategoryNameUniquiness (name otd') (JsNum id') st')
      as [[_ ->] | [Hfree _]]; [done|].
    exfalso. apply Hfree. eexists _, _. split; [exact Hrow|]. split; [done|].
    simpl. destruct (Z.eqb_spec id' 0); [done | congruence].
Qed.

Lemma created_name_is_taken_witness :
  newItemCategory (mkOTD "Tools" (JsNum 99) JsNull JsNull) demoUser
    (created (mkOTD "Tools" JsNull JsNull JsNull) demoUser demoTenant)
  = Rejected (mkServiceError CATEGORY_NAME_EXISTS)
      (created (mkOTD "Tools" JsNull JsNull JsNull) demoUser demoTenant).
Proof.
  apply (created_name_is_taken demoTenant (mkOTD "Tools" JsNull JsNull JsNull) demoUser
           5 (mkCategory "Tools" None None None 7)
           (created (mkOTD "Tools" JsNull JsNull JsNull) demoUser demoTenant));
    reflexivity.
Defined.

(** ** Unlinking composes *)

Lemma unlinkItem_app l1 l2 it :
  unlinkItem (l1 ++ l2) it = unlinkItem l2 (unlinkItem l1 it).
Proof.
  unfold unlinkItem at 1 3. destruct (category_id it) as [c|] eqn:Hc.
  - destruct (decide (c ∈ l1)) as [H1 | H1].
    + rewrite bool_decide_eq_true_2 by (apply elem_of_app; by left).
      rewrite (bool_decide_eq_true_2 _ H1). by unfold unlinkItem.
    + rewrite (bool_decide_eq_false_2 _ H1). unfold unlinkItem. rewrite Hc.
      destruct (decide (c ∈ l2)) as [H2 | H2].
      * rewrite bool_decide_eq_true_2 by (apply elem_of_app; by right).
        by rewrite (bool_decide_eq_true_2 _ H2).
      * rewrite bool_decide_eq_false_2 by (rewrite elem_of_app; tauto).
        by rewrite (bool_decide_eq_false_2 _ H2).
  - unfold unlinkItem. by rewrite Hc.
Qed.

(** [unassociateItemsWithCategories] on a list does to the items what it does
    on the parts of the list one after the other, and on one id what it does
    on the one-element list; run a second time on the same ids it changes no
    item. *)
Theorem unassociate_composes :
  forall st l1 l2 id,
    items (stateOf (unassociateItemsWithCategories (inr (l1 ++ l2)) st))
    = items (stateOf ((unassociateItemsWithCategories (inr l1);;
                       unassociateItemsWithCategories (inr l2)) st))
    /\ items (stateOf (unassociateItemsWithCategories (inl id) st))
       = items (stateOf (unassociateItemsWithCategories (inr [id]) st))
    /\ items (stateOf ((unassociateItemsWithCategories (inr l1);;
                        unassociateItemsWithCategories (inr l1)) st))
       = items (stateOf (unassociateItemsWithCategories (inr l1) st)).
Proof.
  intros st l1 l2 id. split; [|split; [done|]]; simpl;
    rewrite <- map_fmap_compose; apply map_fmap_ext; intros k it _; simpl.
  - apply unlinkItem_app.
  - destruct (category_id (unlinkItem l1 it)) as [c|] eqn:Hc.
    + apply unlinkItem_out. intros c' Hc'. rewrite Hc in Hc'. injection Hc' as <-.
      by apply unlinkItem_clears in Hc.
    + apply unlinkItem_out. intros c'. by rewrite Hc.
Qed.

(** * The vendors reducer *)

Module VendorsReducerFacts.
Import VendorsReducer.

Lemma byId_snoc vendors vendor :
  byId (vendors ++ [vendor]) = <[vendor_id vendor := vendor]> (byId vendors).
Proof. unfold byId. by rewrite fold_left_app. Qed.

Lemma byId_lookup vendors k :
  byId vendors !! k = last (filter (fun v => vendor_id v = k) vendors).
Proof.
  induction vendors as [|v vendors IH] using rev_ind; [done|].
  rewrite byId_snoc, filter_app, last_app.
  destruct (decide (vendor_id v = k)) as [<- | Hne].
  - rewrite lookup_insert_eq. by rewrite filter_cons_True.
  - rewrite lookup_insert_ne by done. by rewrite filter_cons_False.
Qed.

(** [VENDORS_ITEMS_SET] stores every vendor of the payload under its id;
    when an id occurs more than once in the payload, the last vendor with it
    is the one stored; a stored vendor whose id is not in the payload stays
    as it is.  A vendor of the payload replaces the stored one: none of the
    old properties is kept. *)
Theorem items_set_stores_the_last_of_each_id :
  forall state vendors k,
    items (reducer state (VENDORS_ITEMS_SET vendors)) !! k
    = match last (filter (fun v => vendor_id v = k) vendors) with
      | Some v => Some v
      | None => items state !! k
      end.
Proof.
  intros state vendors k. simpl. rewrite lookup_union, byId_lookup.
  destruct (last _); [by destruct (items state !! k) | by rewrite (left_id_L None _)].
Qed.

(** [VENDOR_SET] merges: the stored vendor takes every property of the
    payload and keeps the properties of the vendor stored before that the
    payload does not have; the other vendors are as they were. *)
Theorem vendor_set_merges_properties :
  forall state id vendor,
    exists v',
      items (reducer state (VENDOR_SET id vendor)) !! id = Some v'
      /\ vendor_id v' = vendor_id vendor
      /\ (forall p x, vendor_props vendor !! p = Some x -> vendor_props v' !! p = Some x)
      /\ (forall p,
            vendor_props vendor !! p = None ->
            vendor_props v' !! p
            = items state !! id ≫= (fun old => vendor_props old !! p))
      /\ (forall k, k <> id ->
            items (reducer state (VENDOR_SET id vendor)) !! k = items state !! k).
Proof.
  intros state id vendor. eexists. split; [simpl; apply lookup_insert_eq|].
  split; [done|]. split; [|split].
  - intros p x Hp. simpl. by apply lookup_union_Some_l.
  - intros p Hp. simpl. rewrite lookup_union_r by done.
    by destruct (items state !! id).
  - intros k Hk. simpl. by rewrite lookup_insert_ne.
Qed.

Lemma vendor_set_merges_properties_witness :
  exists v',
    items (dispatchAll initialState
             [VENDOR_SET 1 (mkVendor 1 (<["name" := "Acme"]> (<["city" := "Oslo"]> ∅)));
              VENDOR_SET 1 (mkVendor 1 (<["name" := "Acme Ltd"]> ∅))]) !! 1 = Some v'
    /\ vendor_props v' !! "name" = Some "Acme Ltd"
    /\ vendor_props v' !! "city" = Some "Oslo".
Proof.
  destruct (vendor_set_merges_properties
              (reducer initialState
                 (VENDOR_SET 1 (mkVendor 1 (<["name" := "Acme"]> (<["city" := "Oslo"]> ∅)))))
              1 (mkVendor 1 (<["name" := "Acme Ltd"]> ∅)))
    as (v' & Hv & _ & Hnew & Hold & _).
  exists v'. split; [exact Hv|]. split.
  - apply Hnew. reflexivity.
  - rewrite Hold; reflexivity.
Defined.

(** [VENDOR_DELETE] removes the vendor of the given id and no other; on an
    id that is not stored it leaves the state as it is, so a second delete
    changes nothing; a vendor set under a free id and deleted again leaves
    the vendors as they were. *)
Theorem vendor_delete_removes_one :
  forall state id,
    items (reducer state (VENDOR_DELETE id)) !! id = None
    /\ (forall k, k <> id ->
          items (reducer state (VENDOR_DELETE id)) !! k = items state !! k)
    /\ (items state !! id = None -> reducer state (VENDOR_DELETE id) = state)
    /\ reducer (reducer state (VENDOR_DELETE id)) (VENDOR_DELETE id)
       = reducer state (VENDOR_DELETE id)
    /\ (forall vendor,
          items state !! id = None ->
          items (dispatchAll state [VENDOR_SET id vendor; VENDOR_DELETE id])
          = items state).
Proof.
  intros state id.
  assert (items (reducer state (VENDOR_DELETE id)) !! id = None) as Hgone.
  { simpl. destruct (items state !! id) eqn:Hid; simpl; [apply lookup_delete_eq | done]. }
  split; [exact Hgone|]. split; [|split; [|split]].
  - intros k Hk. simpl. destruct (items state !! id); simpl; [|done].
    by rewrite lookup_delete_ne.
  - intros Hn. simpl. by rewrite Hn.
  - generalize dependent (reducer state (VENDOR_DELETE id)). intros s Hs.
    simpl. by rewrite Hs.
  - intros vendor Hn. simpl. rewrite lookup_insert_eq. simpl.
    rewrite delete_insert_eq. by apply delete_id.
Qed.

Lemma vendor_delete_removes_one_witness :
  reducer initialState (VENDOR_DELETE 5) = initialState
  /\ items (dispatchAll initialState
              [VENDOR_SET 5 (mkVendor 5 ∅); VENDOR_DELETE 5]) = items initialState.
Proof.
  destruct (vendor_delete_removes_one initialState 5) as (_ & _ & Hnoop & _ & Hround).
  split; [apply Hnoop; reflexivity | apply Hround; reflexivity].
Defined.

(** [VENDORS_PAGE_SET] files the ids of the payload's vendors, in their
    order, under the given page of the view [customViewId], or of the view
    [-1] when [customViewId] is [0], [null] or absent; the other pages of
    that view and its other properties stay, the other views and the vendors
    are untouched. *)
Theorem page_set_files_the_ids :
  forall state customViewId vendors page,
    let state' := reducer state (VENDORS_PAGE_SET customViewId vendors page) in
    let viewId := viewIdOf customViewId in
    (falsy customViewId -> viewId = -1)
    /\ (forall n, customViewId = JsNum n -> n <> 0 -> viewId = n)
    /\ (exists view pgs,
          views state' !! viewId = Some view
          /\ pages view = Some pgs
          /\ pgs !! page = Some (map vendor_id vendors)
          /\ (forall q, q <> page ->
                pgs !! q = (views state !! viewId ≫= pages) ≫= (fun old => old !! q))
          /\ view_props view = from_option view_props ∅ (views state !! viewId))
    /\ (forall w, w <> viewId -> views state' !! w = views state !! w)
    /\ items state' = items state.
Proof.
  intros state customViewId vendors page state' viewId.
  split; [intros Hf%falsy_truthy; unfold viewId, viewIdOf; by rewrite Hf|].
  split.
  { intros n -> Hn. unfold viewId, viewIdOf. simpl. by destruct (Z.eqb_spec n 0). }
  split; [|split; [|done]].
  - eexists _, _. split; [simpl; apply lookup_insert_eq|]. split; [done|].
    split; [apply lookup_insert_eq|]. split; [|done].
    intros q Hq. rewrite lookup_insert_ne by done.
    fold viewId. destruct (views state !! viewId) as [v|]; simpl; [|done].
    by destruct (pages v).
  - intros w Hw. simpl. by rewrite lookup_insert_ne.
Qed.

Lemma page_set_files_the_ids_witness :
  viewIdOf (JsNum 0) = -1 /\ viewIdOf JsUndefined = -1 /\ viewIdOf (JsNum 7) = 7.
Proof.
  destruct (page_set_files_the_ids initialState (JsNum 0) [] 1) as (H0 & _).
  destruct (page_set_files_the_ids initialState JsUndefined [] 1) as (Hu & _).
  destruct (page_set_files_the_ids initialState (JsNum 7) [] 1) as (_ & H7 & _).
  split; [apply H0; by left|]. split; [apply Hu; by right; right|].
  apply (H7 7); [reflexivity | lia].
Defined.

Lemma keyed_reducer state action :
  keyed state -> namesItsVendor action -> keyed (reducer state action).
Proof.
  intros Hk Ha. destruct action as [id vendor|l|vendors|v|c vendors page|id|rows];
    try exact Hk; intros k v' Hv'; simpl in *.
  - apply lookup_insert_Some in Hv' as [[<- <-] | [_ Hv']]; [done | by apply Hk].
  - apply lookup_union_Some_raw in Hv' as [Hv' | [_ Hv']]; [|by apply Hk].
    rewrite byId_lookup in Hv'. apply last_Some_elem_of in Hv'.
    by apply list_elem_of_filter in Hv' as [? _].
  - destruct (items state !! id); simpl in Hv'; [|by apply Hk].
    apply lookup_delete_Some in Hv' as [_ Hv']. by apply Hk.
Qed.

(** Every stored vendor is filed under its own id, as long as each
    [VENDOR_SET] names the id of the vendor it carries: from a state where
    this holds, it holds after any run of such actions. *)
Theorem vendors_stay_filed_under_their_id :
  forall actions state,
    keyed state -> Forall namesItsVendor actions ->
    keyed (dispatchAll state actions).
Proof.
  induction actions as [|a actions IH]; intros state Hk Hall; [done|].
  apply Forall_cons in Hall as [Ha Hall]. simpl.
  apply IH; [by apply keyed_reducer | done].
Qed.

Lemma vendors_stay_filed_under_their_id_witness :
  keyed (dispatchAll initialState
           [VENDOR_SET 1 (mkVendor 1 ∅);
            VENDORS_ITEMS_SET [mkVendor 2 ∅; mkVendor 1 ∅];
            VENDOR_DELETE 2]).
Proof.
  apply vendors_stay_filed_under_their_id.
  - intros k v Hv. unfold initialState in Hv. simpl in Hv.
    by rewrite lookup_empty in Hv.
  - repeat constructor.
Defined.

End VendorsReducerFacts.

(** * Journal form errors *)

Module AccountingUtilsFacts.
Import AccountingUtils.

Lemma setEntriesErrors_fields l p m e :
  fields (setEntriesErrors l p m e) = fields e.
Proof.
  revert e. induction l as [|i l IH]; intros e; [done|].
  simpl. by rewrite IH.
Qed.

Lemma rowsOnly_setEntriesErrors l p m e :
  rowsOnly p m e -> rowsOnly p m (setEntriesErrors l p m e).
Proof.
  revert e. induction l as [|i l IH]; intros e He; [done|].
  simpl. apply IH. intros r row Hr. simpl in Hr.
  apply lookup_insert_Some in Hr as [[<- <-] | [_ Hr]]; [|by apply (He r)].
  destruct (entries e !! Z.max (i - 1) 0) as [old|] eqn:Hold; simpl.
  - rewrite (He _ _ Hold). apply insert_singleton_eq.
  - apply insert_empty.
Qed.

Lemma setEntriesErrors_is_Some l p m e r :
  is_Some (entries (setEntriesErrors l p m e) !! r)
  <-> is_Some (entries e !! r) \/ exists i, i ∈ l /\ r = Z.max (i - 1) 0.
Proof.
  revert e. induction l as [|i l IH]; intros e.
  - simpl. split; [by left|]. intros [? | (i & Hi & _)]; [done|].
    by apply not_elem_of_nil in Hi.
  - simpl. rewrite IH. simpl. rewrite lookup_insert_is_Some. split.
    + intros [[<- | [_ ?]] | (j & Hj & ->)].
      * right. exists i. split; [apply list_elem_of_here | done].
      * by left.
      * right. exists j. split; [by apply list_elem_of_further | done].
    + intros [? | (j & Hj & ->)].
      * destruct (decide (Z.max (i - 1) 0 = r)); [left; by left | left; by right].
      * apply elem_of_cons in Hj as [-> | Hj]; [left; by left|].
        right. by exists j.
Qed.

(** The entries of the form that [transformErrors] marks are those the
    response flags, and only those: the entry of index [max (i - 1) 0] for
    each flagged [i] -- so the indexes [0] and [1] of a response both mark
    the first entry, and no index is negative -- each with the one error
    [contact_id: 'error'].  The entry errors the form had before are
    dropped, whatever the response. *)
Theorem marked_entries_are_the_flagged_ones :
  forall formatMessage resErrors errors r row,
    entries (transformErrors formatMessage resErrors errors).1 !! r = Some row
    <-> row = {["contact_id" := "error"]}
        /\ exists i, i ∈ flagged resErrors /\ r = Z.max (i - 1) 0.
Proof.
  intros fm resErrors errors r row.
  set (e0 := {| fields := fields errors; entries := ∅ |}).
  set (e1 := setEntriesErrors
               (from_option indexes [] (getError resErrors RECEIVABLE_ENTRIES_HAS_NO_CUSTOMERS))
               "contact_id" "error" e0).
  set (e2 := setEntriesErrors
               (from_option meta_indexes [] (getError resErrors ENTRIES_SHOULD_ASSIGN_WITH_CONTACT))
               "contact_id" "error" e1).
  assert (entries (transformErrors fm resErrors errors).1 = entries e2) as ->.
  { unfold transformErrors, e2, e1, e0.
    destruct (getError resErrors RECEIVABLE_ENTRIES_HAS_NO_CUSTOMERS);
      destruct (getError resErrors ENTRIES_SHOULD_ASSIGN_WITH_CONTACT);
      destruct (getError resErrors JOURNAL_NUMBER_ALREADY_EXISTS); reflexivity. }
  assert (rowsOnly "contact_id" "error" e2) as Hrows.
  { apply rowsOnly_setEntriesErrors, rowsOnly_setEntriesErrors.
    intros r' row' Hr'. simpl in Hr'. by rewrite lookup_empty in Hr'. }
  assert (is_Some (entries e2 !! r)
          <-> exists i, i ∈ flagged resErrors /\ r = Z.max (i - 1) 0) as Hsome.
  { unfold e2, e1. rewrite !setEntriesErrors_is_Some. simpl. rewrite lookup_empty.
    unfold flagged. split.
    - intros [[[? ?] | (i & Hi & ->)] | (i & Hi & ->)]; [done | |];
        exists i; (split; [|done]); apply elem_of_app; [by left | by right].
    - intros (i & Hi & ->). apply elem_of_app in Hi as [Hi | Hi];
        [left; right | right]; by exists i. }
  split.
  - intros Hr. split; [by apply (Hrows r)|]. apply Hsome. by eexists.
  - intros [-> Hi]. apply Hsome in Hi as [row Hr]. by rewrite (Hrows _ _ Hr) in Hr.
Qed.

Lemma marked_entries_are_the_flagged_ones_witness :
  let result :=
    transformErrors (fun id => id)
      [mkResError RECEIVABLE_ENTRIES_HAS_NO_CUSTOMERS [0; 1; 3] "" []]
      (mkFormErrors ∅ (<[5 := {["credit" := "required"]}]> ∅)) in
  entries result.1 !! 0 = Some {["contact_id" := "error"]}
  /\ entries result.1 !! 2 = Some {["contact_id" := "error"]}
  /\ entries result.1 !! 1 = None
  /\ entries result.1 !! 5 = None.
Proof.
  split; [|split; [|split]].
  - apply (proj2 (marked_entries_are_the_flagged_ones (fun id => id)
                    [mkResError RECEIVABLE_ENTRIES_HAS_NO_CUSTOMERS [0; 1; 3] "" []]
                    (mkFormErrors ∅ (<[5 := {["credit" := "required"]}]> ∅)) 0 _)).
    split; [reflexivity|]. exists 1. split; [|reflexivity].
    apply list_elem_of_In. simpl. tauto.
  - apply (proj2 (marked_entries_are_the_flagged_ones (fun id => id)
                    [mkResError RECEIVABLE_ENTRIES_HAS_NO_CUSTOMERS [0; 1; 3] "" []]
                    (mkFormErrors ∅ (<[5 := {["credit" := "required"]}]> ∅)) 2 _)).
    split; [reflexivity|]. exists 3. split; [|reflexivity].
    apply list_elem_of_In. simpl. tauto.
  - reflexivity.
  - reflexivity.
Defined.

(** A toast is shown exactly when the response has a receivable error, or a
    contact error whose contact type is ['customer'] or ['vendor']; a journal
    number error shows none, it sets the [journal_number] error of the form.
    Every other property of the form's errors is handed on as it was. *)
Theorem toast_and_fields :
  forall formatMessage resErrors errors,
    let result := transformErrors formatMessage resErrors errors in
    (result.2 = None
     <-> getError resErrors RECEIVABLE_ENTRIES_HAS_NO_CUSTOMERS = None
         /\ forall e, getError resErrors ENTRIES_SHOULD_ASSIGN_WITH_CONTACT = Some e ->
                      meta_contact_type e <> "customer"
                      /\ meta_contact_type e <> "vendor")
    /\ (forall k, k <> "journal_number" ->
          fields result.1 !! k = fields errors !! k)
    /\ fields result.1 !! "journal_number"
       = match getError resErrors JOURNAL_NUMBER_ALREADY_EXISTS with
         | Some _ => Some (formatMessage "journal_number_is_already_used")
         | None => fields errors !! "journal_number"
         end.
Proof.
  intros fm resErrors errors result. subst result. unfold transformErrors.
  split; [|split].
  - destruct (getError resErrors RECEIVABLE_ENTRIES_HAS_NO_CUSTOMERS) as [e1|];
      destruct (getError resErrors ENTRIES_SHOULD_ASSIGN_WITH_CONTACT) as [e2|];
      destruct (getError resErrors JOURNAL_NUMBER_ALREADY_EXISTS) as [e3|];
      try (destruct (decide (meta_contact_type e2 = "customer")) as [Hc | Hc];
           [rewrite (bool_decide_eq_true_2 _ Hc) | rewrite (bool_decide_eq_false_2 _ Hc)];
           (destruct (decide (meta_contact_type e2 = "vendor")) as [Hv | Hv];
            [rewrite (bool_decide_eq_true_2 _ Hv)
            | rewrite (bool_decide_eq_false_2 _ Hv)]));
      simpl; (split; [intros Hn | intros [Hn Hall]]); try discriminate Hn;
      try reflexivity; try (destruct (Hall e2 eq_refl); done);
      (split; [done|]); intros e He; try discriminate He;
      injection He as <-; by split.
  - intros k Hk.
    destruct (getError resErrors RECEIVABLE_ENTRIES_HAS_NO_CUSTOMERS) as [e1|];
      destruct (getError resErrors ENTRIES_SHOULD_ASSIGN_WITH_CONTACT) as [e2|];
      destruct (getError resErrors JOURNAL_NUMBER_ALREADY_EXISTS) as [e3|];
      simpl; rewrite ?lookup_insert_ne by done; by rewrite ?setEntriesErrors_fields.
  - destruct (getError resErrors RECEIVABLE_ENTRIES_HAS_NO_CUSTOMERS) as [e1|];
      destruct (getError resErrors ENTRIES_SHOULD_ASSIGN_WITH_CONTACT) as [e2|];
      destruct (getError resErrors JOURNAL_NUMBER_ALREADY_EXISTS) as [e3|];
      simpl; rewrite ?lookup_insert_eq; by rewrite ?setEntriesErrors_fields.
Qed.

Lemma toast_and_fields_witness :
  (transformErrors (fun id => id)
     [mkResError JOURNAL_NUMBER_ALREADY_EXISTS [] "" [];
      mkResError ENTRIES_SHOULD_ASSIGN_WITH_CONTACT [] "account" [2]]
     (mkFormErrors (<["date" := "required"]> ∅) ∅)).2 = None
  /\ fields
       (transformErrors (fun id => id)
          [mkResError JOURNAL_NUMBER_ALREADY_EXISTS [] "" [];
           mkResError ENTRIES_SHOULD_ASSIGN_WITH_CONTACT [] "account" [2]]
          (mkFormErrors (<["date" := "required"]> ∅) ∅)).1 !! "date" = Some "required".
Proof.
  destruct (toast_and_fields (fun id => id)
              [mkResError JOURNAL_NUMBER_ALREADY_EXISTS [] "" [];
               mkResError ENTRIES_SHOULD_ASSIGN_WITH_CONTACT [] "account" [2]]
              (mkFormErrors (<["date" := "required"]> ∅) ∅))
    as (Htoast & Hfields & _).
  split.
  - apply Htoast. split; [reflexivity|]. intros e [= <-]. by split.
  - rewrite Hfields; [reflexivity | done].
Defined.

End AccountingUtilsFacts.
